(** * A model of the theme-transition hook (src/hook/useThemeTransition.ts)

    The hook is embedded as functions over an explicit [World]: the parts
    of the window, the document and the storage that the hook reads and
    writes, React's state cells, the values of the last committed render,
    the caller's own state, and the callbacks that are scheduled but have
    not run yet.  JavaScript numbers are idealised as real numbers, and the
    text of a style element is kept as the structure of its template
    literal: rules, declarations, and values made of literal text and
    interpolated numbers. *)

From Stdlib Require Import Reals Lra Lia String List Bool.
From stdpp Require Import gmap strings list.
Import ListNotations.
Local Open Scope string_scope.

(** ** Enumerations and options *)

Inductive ThemeAnimationType := CIRCLE | BLUR_CIRCLE | FADE | SLIDE | NONE.

Inductive SlideDirection := UP | DOWN | LEFT | RIGHT.

(** [ThemeTransitionOptions] after destructuring with its defaults.  [C] is
    the state owned by the caller: on every render the caller passes
    [externalDarkMode] computed from it, and [onDarkModeChange], when
    supplied, acts on it. *)
Record Options (C : Type) := {
  duration : R;
  easing : string;
  themeClassName : string;
  animationType : ThemeAnimationType;
  blurAmount : R;
  styleId : string;
  externalDarkMode : C -> option bool;
  onDarkModeChange : option (bool -> C -> C);
  storageKey : string;
  respectSystemPreference : bool;
  slideDirection : SlideDirection
}.
Arguments duration {C} _.
Arguments easing {C} _.
Arguments themeClassName {C} _.
Arguments animationType {C} _.
Arguments blurAmount {C} _.
Arguments styleId {C} _.
Arguments externalDarkMode {C} _ _.
Arguments onDarkModeChange {C} _.
Arguments storageKey {C} _.
Arguments respectSystemPreference {C} _.
Arguments slideDirection {C} _.

(** The defaults of the destructuring at the top of the hook: no external
    value and no change callback. *)
Definition defaultOptions : Options unit := {|
  duration := 750;
  easing := "cubic-bezier(0.4, 0, 0.2, 1)";
  themeClassName := "dark";
  animationType := CIRCLE;
  blurAmount := 2;
  styleId := "theme-transition-style";
  externalDarkMode := fun _ => None;
  onDarkModeChange := None;
  storageKey := "theme";
  respectSystemPreference := true;
  slideDirection := RIGHT
|}.

(** ** Style sheets as structured template literals *)

Inductive tok := Txt (s : string) | Num (n : R).

Definition cssValue := list tok.

Record decl := Decl { prop : string; value : cssValue }.

Inductive rule :=
| Style (selector : string) (body : list decl)
| Keyframes (name : string) (frames : list (string * list decl)).

Definition stylesheet := list rule.

Record StyleElement := { el_id : string; textContent : stylesheet }.

Definition declValue (p : string) (ds : list decl) : option cssValue :=
  value <$> List.find (fun d => String.eqb (prop d) p) ds.

Definition isKeyframes (n : string) (r : rule) : bool :=
  match r with
  | Keyframes m _ => String.eqb m n
  | Style _ _ => false
  end.

(** The declarations of step [frame] of the keyframes called [name]. *)
Definition keyframe (name frame : string) (s : stylesheet) : option (list decl) :=
  match List.find (isKeyframes name) s with
  | Some (Keyframes _ frames) =>
      snd <$> List.find (fun f => String.eqb (fst f) frame) frames
  | _ => None
  end.

Definition dq : string := String (Ascii.ascii_of_nat 34) EmptyString.

Definition createBlurCircleMask (blur : R) : cssValue :=
  [ Txt ("url('data:image/svg+xml,<svg xmlns=" ++ dq ++ "http://www.w3.org/2000/svg"
         ++ dq ++ " viewBox=" ++ dq ++ "-50 -50 100 100" ++ dq
         ++ "><defs><filter id=" ++ dq ++ "blur" ++ dq
         ++ "><feGaussianBlur stdDeviation=" ++ dq);
    Num blur;
    Txt (dq ++ "/></filter></defs><circle cx=" ++ dq ++ "0" ++ dq ++ " cy=" ++ dq
         ++ "0" ++ dq ++ " r=" ++ dq ++ "25" ++ dq ++ " fill=" ++ dq ++ "white"
         ++ dq ++ " filter=" ++ dq ++ "url(%23blur)" ++ dq ++ "/></svg>')") ].

Definition baseStyleId : string := "theme-transition-base-style".

Definition baseSheet : stylesheet :=
  [ Style "::view-transition-old(root), ::view-transition-new(root)"
      [ Decl "animation" [Txt "none"];
        Decl "mix-blend-mode" [Txt "normal"] ] ].

Definition fadeOutFrames : rule :=
  Keyframes "fadeOut"
    [ ("from", [Decl "opacity" [Txt "1"]]);
      ("to", [Decl "opacity" [Txt "0"]]) ].

Definition groupRule (dur : R) (ease : string) : rule :=
  Style "::view-transition-group(root)"
    [ Decl "animation-duration" [Num dur; Txt "ms"];
      Decl "animation-timing-function" [Txt ease] ].

Definition animationDecl (name : string) (dur : R) (ease : string) : decl :=
  Decl "animation" [Txt (name ++ " "); Num dur; Txt "ms "; Txt ease].

Definition fadeSheet (dur : R) (ease : string) : stylesheet :=
  [ groupRule dur ease;
    Style "::view-transition-new(root)" [ animationDecl "fadeIn" dur ease ];
    Style "::view-transition-old(root)" [ animationDecl "fadeOut" dur ease ];
    Keyframes "fadeIn"
      [ ("from", [Decl "opacity" [Txt "0"]]);
        ("to", [Decl "opacity" [Txt "1"]]) ];
    fadeOutFrames ].

Definition slideFrom (d : SlideDirection) : string * string :=
  match d with
  | UP => ("0%", "100%")
  | DOWN => ("0%", "-100%")
  | LEFT => ("100%", "0%")
  | RIGHT => ("-100%", "0%")
  end.

Definition slideSheet (dur : R) (ease : string) (d : SlideDirection) : stylesheet :=
  let '(fromX, fromY) := slideFrom d in
  [ groupRule dur ease;
    Style "::view-transition-new(root)" [ animationDecl "slideIn" dur ease ];
    Style "::view-transition-old(root)" [ animationDecl "fadeOut" dur ease ];
    Keyframes "slideIn"
      [ ("from", [ Decl "transform" [Txt ("translate(" ++ fromX ++ ", " ++ fromY ++ ")")];
                   Decl "opacity" [Txt "0"] ]);
        ("to", [ Decl "transform" [Txt "translate(0%, 0%)"];
                 Decl "opacity" [Txt "1"] ]) ];
    fadeOutFrames ].

(** The sheet of [applyBlurCircleTransition]; [W] and [H] are
    [window.innerWidth] and [window.innerHeight]. *)
Definition blurCircleSheet (dur : R) (ease : string) (blur x y W H : R) : stylesheet :=
  let viewportSize := Rmax W H in
  let scaleFactor := 5.5%R in
  [ groupRule dur ease;
    Style "::view-transition-new(root)"
      [ Decl "mask" (createBlurCircleMask blur ++ [Txt " 0 0 / 100% 100% no-repeat"])%list;
        Decl "mask-position" [Num x; Txt "px "; Num y; Txt "px"];
        animationDecl "maskScale" dur ease;
        Decl "transform-origin" [Num x; Txt "px "; Num y; Txt "px"] ];
    Style "::view-transition-old(root)"
      [ animationDecl "fadeOut" dur ease;
        Decl "transform-origin" [Num x; Txt "px "; Num y; Txt "px"];
        Decl "z-index" [Txt "-1"] ];
    Keyframes "maskScale"
      [ ("0%", [ Decl "mask-size" [Txt "0px"];
                 Decl "mask-position" [Num x; Txt "px "; Num y; Txt "px"] ]);
        ("100%", [ Decl "mask-size" [Num (viewportSize * scaleFactor)%R; Txt "px"];
                   Decl "mask-position"
                     [ Num (x - (viewportSize * scaleFactor) / 2)%R; Txt "px ";
                       Num (y - (viewportSize * scaleFactor) / 2)%R; Txt "px" ] ]) ];
    fadeOutFrames ].

(** [Math.hypot] on two arguments. *)
Definition hypot (a b : R) : R := sqrt (a * a + b * b)%R.

(** The radius computed in the circle branch of [setTheme]. *)
Definition maxRadius (x y W H : R) : R :=
  hypot (Rmax x (W - x)%R) (Rmax y (H - y)%R).

Definition circleSheet (dur : R) (ease : string) (x y W H : R) : stylesheet :=
  [ Style "::view-transition-new(root)"
      [ Decl "animation" [Txt "expandCircle "; Num dur; Txt "ms "; Txt ease; Txt " forwards"] ];
    Keyframes "expandCircle"
      [ ("from", [ Decl "clip-path" [Txt "circle(0px at "; Num x; Txt "px "; Num y; Txt "px)"] ]);
        ("to", [ Decl "clip-path"
                   [Txt "circle("; Num (maxRadius x y W H); Txt "px at ";
                    Num x; Txt "px "; Num y; Txt "px)"] ]) ] ].

(** ** The world the hook runs in *)

Record DOMRect := { top : R; left : R; width : R; height : R }.

(** What the hook only reads: [window.innerWidth] and [innerHeight], the
    two media queries, whether [document.startViewTransition] is defined,
    and the bounding rectangle of [ref.current] when the ref is bound. *)
Record Host := {
  innerWidth : R;
  innerHeight : R;
  prefersDark : bool;
  prefersReducedMotion : bool;
  startViewTransition : bool;
  refCurrent : option DOMRect
}.

(** What the hook writes: the style elements of [document.head] in document
    order, the class list of the root element, [localStorage], and whether
    the media-query listener is registered.  The identifiers the hook looks
    up are taken to be carried by these style elements only, so that
    [document.getElementById] is a search of [head]. *)
Record Dom := {
  head : list StyleElement;
  classList : gset string;
  localStorage : gmap string string;
  mediaListener : bool
}.

(** The two [useState] cells. *)
Record Cells := { internalDarkMode : bool; transitioning : bool }.

(** The values of the last committed render, which the closures handed to
    the caller were built from. *)
Record Rendered := { isDarkMode : bool; isTransitioning : bool }.

(** Callbacks that are scheduled and have not run: the update callback
    given to [startViewTransition], the rest of [setTheme] after its
    [await], and the [setTimeout] callback.  Any of them may run next:
    the order in which the platform calls them is not fixed here. *)
Inductive Task := TUpdate (isDark : bool) | TResume | TCleanup.

(** Observable actions, recorded in program order. *)
Inductive Event :=
| EvAnchor (x y : R)
| EvStyleRemoved (id : string)
| EvStyleAppended (id : string)
| EvSetIsTransitioning (b : bool)
| EvStartViewTransition
| EvOnDarkModeChange (b : bool)
| EvSetInternalDarkMode (b : bool)
| EvSetTimeout (ms : R).

(** [trace] and [snapshots] are observation logs: the events so far, and
    the content of [document.head] after each change made to it. *)
Record World (C : Type) := {
  host : Host;
  dom : Dom;
  cells : Cells;
  rendered : Rendered;
  caller : C;
  pending : list Task;
  trace : list Event;
  snapshots : list (list StyleElement)
}.
Arguments host {C} _.
Arguments dom {C} _.
Arguments cells {C} _.
Arguments rendered {C} _.
Arguments caller {C} _.
Arguments pending {C} _.
Arguments trace {C} _.
Arguments snapshots {C} _.

Section Setters.
Context {C : Type}.
Implicit Type w : World C.

Definition with_host (h : Host) w : World C :=
  {| host := h; dom := dom w; cells := cells w; rendered := rendered w;
     caller := caller w; pending := pending w; trace := trace w;
     snapshots := snapshots w |}.

Definition with_dom (d : Dom) w : World C :=
  {| host := host w; dom := d; cells := cells w; rendered := rendered w;
     caller := caller w; pending := pending w; trace := trace w;
     snapshots := snapshots w |}.

Definition with_cells (c : Cells) w : World C :=
  {| host := host w; dom := dom w; cells := c; rendered := rendered w;
     caller := caller w; pending := pending w; trace := trace w;
     snapshots := snapshots w |}.

Definition with_rendered (r : Rendered) w : World C :=
  {| host := host w; dom := dom w; cells := cells w; rendered := r;
     caller := caller w; pending := pending w; trace := trace w;
     snapshots := snapshots w |}.

Definition with_caller (c : C) w : World C :=
  {| host := host w; dom := dom w; cells := cells w; rendered := rendered w;
     caller := c; pending := pending w; trace := trace w;
     snapshots := snapshots w |}.

Definition with_pending (p : list Task) w : World C :=
  {| host := host w; dom := dom w; cells := cells w; rendered := rendered w;
     caller := caller w; pending := p; trace := trace w;
     snapshots := snapshots w |}.

Definition log (e : Event) w : World C :=
  {| host := host w; dom := dom w; cells := cells w; rendered := rendered w;
     caller := caller w; pending := pending w; trace := trace w ++ [e];
     snapshots := snapshots w |}.

(** Replace the content of [document.head] and record it. *)
Definition with_head (h : list StyleElement) w : World C :=
  {| host := host w;
     dom := {| head := h; classList := classList (dom w);
               localStorage := localStorage (dom w);
               mediaListener := mediaListener (dom w) |};
     cells := cells w; rendered := rendered w;
     caller := caller w; pending := pending w; trace := trace w;
     snapshots := snapshots w ++ [h] |}.

Definition enqueue (t : Task) w : World C :=
  with_pending (pending w ++ [t]) w.
End Setters.

(** ** Document primitives *)

(** Whether the [id] attribute of [e] is [id]. *)
Definition hasId (id : string) (e : StyleElement) : bool := String.eqb (el_id e) id.

(** [document.getElementById]: the first element in document order.  An
    element whose [id] attribute is the empty string has no identifier, so
    a lookup of the empty string finds nothing. *)
Definition getElementById (id : string) (h : list StyleElement) : option StyleElement :=
  if String.eqb id "" then None else List.find (hasId id) h.

(** [element.remove()] on the element [getElementById] returned. *)
Fixpoint removeFirst (id : string) (h : list StyleElement) : list StyleElement :=
  match h with
  | [] => []
  | e :: t => if hasId id e then t else e :: removeFirst id t
  end.

(** How many elements of the head have [id] as their [id] attribute. *)
Definition alive (id : string) (h : list StyleElement) : nat :=
  length (List.filter (hasId id) h).

(** JavaScript truthiness of what [localStorage.getItem] returned: [null]
    and the empty string are falsy. *)
Definition truthy (v : option string) : bool :=
  match v with
  | None => false
  | Some s => negb (String.eqb s "")
  end.

Section Hook.
Context {C : Type}.
(** [isBrowser] is the module constant [typeof window !== 'undefined']. *)
Variable isBrowser : bool.
Variable o : Options C.
Implicit Type w : World C.

(** [document.head.appendChild(styleElement)] *)
Definition appendChild (e : StyleElement) w : World C :=
  log (EvStyleAppended (el_id e)) (with_head (head (dom w) ++ [e]) w).

(** [const s = document.getElementById(id); if (s) s.remove()] *)
Definition removeStyle (id : string) w : World C :=
  match getElementById id (head (dom w)) with
  | Some _ => log (EvStyleRemoved id) (with_head (removeFirst id (head (dom w))) w)
  | None => w
  end.

Definition setIsTransitioning (b : bool) w : World C :=
  log (EvSetIsTransitioning b)
    (with_cells {| internalDarkMode := internalDarkMode (cells w);
                   transitioning := b |} w).

Definition setInternalDarkMode (b : bool) w : World C :=
  log (EvSetInternalDarkMode b)
    (with_cells {| internalDarkMode := b;
                   transitioning := transitioning (cells w) |} w).

(** The first effect: the base reset style, created once. *)
Definition injectBaseStyle w : World C :=
  if isBrowser then
    match getElementById baseStyleId (head (dom w)) with
    | None => appendChild {| el_id := baseStyleId; textContent := baseSheet |} w
    | Some _ => w
    end
  else w.

Definition getInitialTheme (d : Dom) (h : Host) : bool :=
  if negb isBrowser then false else
  let storedTheme := localStorage d !! storageKey o in
  if decide (storedTheme = Some "dark") then true else
  if decide (storedTheme = Some "light") then false else
  if respectSystemPreference o then prefersDark h else false.

(** [isDarkMode] as the hook body computes it on a render. *)
Definition currentDarkMode w : bool :=
  match externalDarkMode o (caller w) with
  | Some ext => ext
  | None => internalDarkMode (cells w)
  end.

(** The second effect: apply the rendered theme to the root element and
    to storage. *)
Definition applyTheme w : World C :=
  if negb isBrowser then w else
  let d := dom w in
  if isDarkMode (rendered w) then
    with_dom {| head := head d;
                classList := classList d ∪ {[ themeClassName o ]};
                localStorage := <[ storageKey o := "dark" ]> (localStorage d);
                mediaListener := mediaListener d |} w
  else
    with_dom {| head := head d;
                classList := classList d ∖ {[ themeClassName o ]};
                localStorage := <[ storageKey o := "light" ]> (localStorage d);
                mediaListener := mediaListener d |} w.

(** The third effect: [mediaQuery.addEventListener('change', handleChange)]. *)
Definition subscribe w : World C :=
  if negb isBrowser || negb (respectSystemPreference o) then w else
  let d := dom w in
  with_dom {| head := head d; classList := classList d;
              localStorage := localStorage d; mediaListener := true |} w.

(** [updateDarkMode]: the argument is a value or a function of the
    rendered value. *)
Definition updateDarkMode (v : bool + (bool -> bool)) w : World C :=
  let newValue := match v with
                  | inl b => b
                  | inr f => f (isDarkMode (rendered w))
                  end in
  match onDarkModeChange o with
  | Some cb => log (EvOnDarkModeChange newValue) (with_caller (cb newValue (caller w)) w)
  | None => setInternalDarkMode newValue w
  end.

(** [handleChange] of the media-query listener. *)
Definition handleChange (matches : bool) w : World C :=
  if negb (truthy (localStorage (dom w) !! storageKey o))
  then updateDarkMode (inl matches) w
  else w.

Definition applyFadeTransition w : World C :=
  appendChild {| el_id := styleId o;
                 textContent := fadeSheet (duration o) (easing o) |} w.

Definition applySlideTransition w : World C :=
  appendChild {| el_id := styleId o;
                 textContent := slideSheet (duration o) (easing o) (slideDirection o) |} w.

Definition applyBlurCircleTransition (x y : R) w : World C :=
  appendChild {| el_id := styleId o;
                 textContent := blurCircleSheet (duration o) (easing o) (blurAmount o) x y
                                  (innerWidth (host w)) (innerHeight (host w)) |} w.

(** The reference point: the viewport centre, replaced by the centre of
    the bound element when [ref.current] is set. *)
Definition anchor (h : Host) : R * R :=
  let x := (innerWidth h / 2)%R in
  let y := (innerHeight h / 2)%R in
  match refCurrent h with
  | Some r => ((left r + width r / 2)%R, (top r + height r / 2)%R)
  | None => (x, y)
  end.

(** [document.startViewTransition(callback)]: the callback is kept for
    the platform to call. *)
Definition callStartViewTransition (isDark : bool) w : World C :=
  enqueue (TUpdate isDark) (log EvStartViewTransition w).

Definition animated w : bool :=
  isBrowser
  && startViewTransition (host w)
  && negb (prefersReducedMotion (host w))
  && negb (match animationType o with NONE => true | _ => false end).

(** [setTheme] up to its [await]; the rest is the task [TResume]. *)
Definition setTheme (isDark : bool) w : World C :=
  if negb isBrowser then updateDarkMode (inl isDark) w else
  if negb (startViewTransition (host w))
     || prefersReducedMotion (host w)
     || match animationType o with NONE => true | _ => false end
  then updateDarkMode (inl isDark) w else
  let '(x, y) := anchor (host w) in
  let w := log (EvAnchor x y) w in
  let w := removeStyle (styleId o) w in
  let w := match animationType o with
           | FADE => applyFadeTransition w
           | SLIDE => applySlideTransition w
           | BLUR_CIRCLE => applyBlurCircleTransition x y w
           | _ => w
           end in
  let w := setIsTransitioning true w in
  let w := callStartViewTransition isDark w in
  let w := match animationType o with
           | CIRCLE =>
               appendChild {| el_id := styleId o;
                              textContent := circleSheet (duration o) (easing o) x y
                                               (innerWidth (host w)) (innerHeight (host w)) |} w
           | _ => w
           end in
  enqueue TResume w.

Definition toggleTheme w : World C :=
  if isTransitioning (rendered w) then w
  else setTheme (negb (isDarkMode (rendered w))) w.

(** A render commits the current values and, when [isDarkMode] changed,
    reruns the effect that depends on it. *)
Definition render w : World C :=
  let w' := with_rendered {| isDarkMode := currentDarkMode w;
                             isTransitioning := transitioning (cells w) |} w in
  if Bool.eqb (isDarkMode (rendered w)) (currentDarkMode w) then w' else applyTheme w'.

(** [flushSync(f)]: run [f], then render at once. *)
Definition flushSync (f : World C -> World C) w : World C := render (f w).

Definition runTask (t : Task) w : World C :=
  match t with
  | TUpdate isDark => flushSync (updateDarkMode (inl isDark)) w
  | TResume => enqueue TCleanup (log (EvSetTimeout (duration o)) w)
  | TCleanup => setIsTransitioning false (removeStyle (styleId o) w)
  end.

(** The first render and its effects, in the order the hook declares
    them. *)
Definition mount (h : Host) (d : Dom) (c : C) : World C :=
  let cs := {| internalDarkMode := getInitialTheme d h; transitioning := false |} in
  let w := {| host := h; dom := d; cells := cs;
              rendered := {| isDarkMode := match externalDarkMode o c with
                                           | Some ext => ext
                                           | None => internalDarkMode cs
                                           end;
                             isTransitioning := false |};
              caller := c; pending := []; trace := [];
              snapshots := [head d] |} in
  subscribe (applyTheme (injectBaseStyle w)).

(** What can happen next: a call of an exposed operation, a scheduled
    callback running, a render, a change of the operating system's
    colour scheme, a change of what the hook only reads, or the caller
    changing its own state. *)
Inductive Action :=
| ASetTheme (isDark : bool)
| AToggleTheme
| ARunTask (i : nat)
| ARender
| AAmbient (matches : bool)
| AEnv (W H : R) (reduced : bool) (r : option DOMRect)
| ACaller (f : C -> C).

Definition step (a : Action) w : World C :=
  match a with
  | ASetTheme b => setTheme b w
  | AToggleTheme => toggleTheme w
  | ARunTask i =>
      match pending w !! i with
      | Some t => runTask t (with_pending (delete i (pending w)) w)
      | None => w
      end
  | ARender => render w
  | AAmbient m =>
      let h := host w in
      let w := with_host {| innerWidth := innerWidth h; innerHeight := innerHeight h;
                            prefersDark := m;
                            prefersReducedMotion := prefersReducedMotion h;
                            startViewTransition := startViewTransition h;
                            refCurrent := refCurrent h |} w in
      if mediaListener (dom w) then handleChange m w else w
  | AEnv W H reduced r =>
      let h := host w in
      with_host {| innerWidth := W; innerHeight := H;
                   prefersDark := prefersDark h;
                   prefersReducedMotion := reduced;
                   startViewTransition := startViewTransition h;
                   refCurrent := r |} w
  | ACaller f => with_caller (f (caller w)) w
  end.

Definition run (acts : list Action) w : World C :=
  fold_left (fun w a => step a w) acts w.
End Hook.

(** ** Observations the statements are written with *)

(** The [mask-size] of one step of the [maskScale] keyframes. *)
Definition maskScaleSize (frame : string) (s : stylesheet) : option cssValue :=
  match keyframe "maskScale" frame s with
  | Some ds => declValue "mask-size" ds
  | None => None
  end.

(** The [clip-path] of one step of the [expandCircle] keyframes. *)
Definition expandCircleClip (frame : string) (s : stylesheet) : option cssValue :=
  match keyframe "expandCircle" frame s with
  | Some ds => declValue "clip-path" ds
  | None => None
  end.

(** The centre of a bounding box, as the midpoint of its opposite edges. *)
Definition rectCenter (r : DOMRect) : R * R :=
  (((left r + (left r + width r)) / 2)%R, ((top r + (top r + height r)) / 2)%R).

Definition dist (x y a b : R) : R :=
  sqrt ((x - a) * (x - a) + (y - b) * (y - b))%R.

(** The largest of the distances from [(x, y)] to the four corners of a
    viewport of width [W] and height [H]. *)
Definition farthestCorner (x y W H : R) : R :=
  Rmax (Rmax (dist x y 0 0) (dist x y W 0)) (Rmax (dist x y 0 H) (dist x y W H)).

Definition isStart (e : Event) : bool :=
  match e with EvStartViewTransition => true | _ => false end.

Definition isAppend (id : string) (e : Event) : bool :=
  match e with EvStyleAppended i => String.eqb i id | _ => false end.

(** Platform transitions started, and fragments attached under [id], in a
    trace. *)
Definition started (t : list Event) : nat := length (List.filter isStart t).

Definition appended (id : string) (t : list Event) : nat :=
  length (List.filter (isAppend id) t).

(** The events an operation added when it took [w] to [w']. *)
Definition emitted {C} (w w' : World C) : list Event :=
  drop (length (trace w)) (trace w').

(** Whether a fragment under [id] is attached after the platform
    transition was started. *)
Fixpoint appendsAfterStart (id : string) (t : list Event) : bool :=
  match t with
  | [] => false
  | e :: t' => if isStart e then existsb (isAppend id) t' else appendsAfterStart id t'
  end.

(** The event of removing the stale fragment, when there is one. *)
Definition staleRemoval {C} (id : string) (w : World C) : list Event :=
  match getElementById id (head (dom w)) with
  | Some _ => [EvStyleRemoved id]
  | None => []
  end.

Definition atMostOne (h : list StyleElement) : Prop := forall id, alive id h <= 1.

Definition stored {C} (o : Options C) (w : World C) : Prop :=
  localStorage (dom w) !! storageKey o = Some "dark"
  \/ localStorage (dom w) !! storageKey o = Some "light".

(** ** Sample worlds *)

Definition sampleHost : Host := {|
  innerWidth := 300; innerHeight := 400;
  prefersDark := false; prefersReducedMotion := false;
  startViewTransition := true; refCurrent := None
|}.

Definition emptyDom : Dom := {|
  head := []; classList := ∅; localStorage := ∅; mediaListener := false
|}.

Definition withKind (k : ThemeAnimationType) : Options unit := {|
  duration := 500;
  easing := easing defaultOptions;
  themeClassName := themeClassName defaultOptions;
  animationType := k;
  blurAmount := blurAmount defaultOptions;
  styleId := styleId defaultOptions;
  externalDarkMode := fun _ => None;
  onDarkModeChange := None;
  storageKey := storageKey defaultOptions;
  respectSystemPreference := true;
  slideDirection := RIGHT
|}.

(** A caller that owns the theme: it passes its boolean as the external
    value and its setter as the change callback. *)
Definition controlled (k : ThemeAnimationType) : Options bool := {|
  duration := 500;
  easing := easing defaultOptions;
  themeClassName := themeClassName defaultOptions;
  animationType := k;
  blurAmount := blurAmount defaultOptions;
  styleId := styleId defaultOptions;
  externalDarkMode := fun c => Some c;
  onDarkModeChange := Some (fun b _ => b);
  storageKey := storageKey defaultOptions;
  respectSystemPreference := true;
  slideDirection := RIGHT
|}.


Definition darkDom : Dom := {|
  head := []; classList := ∅;
  localStorage := <[ "theme" := "dark" ]> ∅; mediaListener := false
|}.

Definition darkHost : Host := {|
  innerWidth := 300; innerHeight := 400;
  prefersDark := true; prefersReducedMotion := false;
  startViewTransition := true; refCurrent := None
|}.

Definition reducedHost : Host := {|
  innerWidth := 300; innerHeight := 400;
  prefersDark := false; prefersReducedMotion := true;
  startViewTransition := true; refCurrent := None
|}.

(** The theme state wherever it is owned: the internal cell and the
    caller's state. *)
Definition themeState {C} (w : World C) : bool * C :=
  (internalDarkMode (cells w), caller w).

Definition newValue {C} (v : bool + (bool -> bool)) (w : World C) : bool :=
  match v with
  | inl b => b
  | inr f => f (isDarkMode (rendered w))
  end.

(** The head once the element [getElementById] finds, if any, is removed. *)
Definition withoutStale (id : string) (h : list StyleElement) : list StyleElement :=
  match getElementById id h with
  | Some _ => removeFirst id h
  | None => h
  end.

(** The invariant on the head and on its recorded history, for one
    identifier. *)
Definition headInv (id : string) (h : list StyleElement)
    (ss : list (list StyleElement)) : Prop :=
  alive id h <= 1 /\ Forall (fun hd => alive id hd <= 1) ss /\ last ss = Some h.

Definition worldInv {C} (id : string) (w : World C) : Prop :=
  headInv id (head (dom w)) (snapshots w).


Definition buttonRect : DOMRect := {| top := 10; left := 20; width := 40; height := 30 |}.

Definition boundHost : Host := {|
  innerWidth := 300; innerHeight := 400;
  prefersDark := false; prefersReducedMotion := false;
  startViewTransition := true; refCurrent := Some buttonRect
|}.

(** ** Observations on fragments and on the applied theme *)

(** The sheet [setTheme] attaches for the configured kind, at anchor
    [(x, y)] in a viewport of [W] by [H]. *)
Definition kindSheet {C} (o : Options C) (x y W H : R) : stylesheet :=
  match animationType o with
  | CIRCLE => circleSheet (duration o) (easing o) x y W H
  | BLUR_CIRCLE => blurCircleSheet (duration o) (easing o) (blurAmount o) x y W H
  | FADE => fadeSheet (duration o) (easing o)
  | SLIDE => slideSheet (duration o) (easing o) (slideDirection o)
  | NONE => []
  end.

(** The text of [s] up to its first space. *)
Fixpoint firstWord (s : string) : string :=
  match s with
  | EmptyString => EmptyString
  | String c t => if Ascii.eqb c (Ascii.ascii_of_nat 32) then EmptyString else String c (firstWord t)
  end.

(** The [animation] declarations of a rule: the keyframes they name, and
    the duration and easing they run with. *)
Definition animationOf (d : decl) : option (string * option (R * string)) :=
  if String.eqb (prop d) "animation" then
    match value d with
    | Txt n :: Num dur :: Txt "ms " :: Txt ease :: _ =>
        Some (firstWord n, Some (dur, ease))
    | Txt n :: _ => Some (firstWord n, None)
    | _ => None
    end
  else None.

Definition ruleAnimations (r : rule) : list (string * option (R * string)) :=
  match r with
  | Style _ body => omap animationOf body
  | Keyframes _ _ => []
  end.

Definition animations (s : stylesheet) : list (string * option (R * string)) :=
  concat (map ruleAnimations s).

Definition keyframeNames (s : stylesheet) : list string :=
  omap (fun r => match r with Keyframes n _ => Some n | Style _ _ => None end) s.

(** The [mask-position] of one step of the [maskScale] keyframes. *)
Definition maskScalePosition (frame : string) (s : stylesheet) : option cssValue :=
  match keyframe "maskScale" frame s with
  | Some ds => declValue "mask-position" ds
  | None => None
  end.

(** The root element and the storage agree with the rendered theme. *)
Definition synced {C} (o : Options C) (w : World C) : Prop :=
  localStorage (dom w) !! storageKey o
    = Some (if isDarkMode (rendered w) then "dark" else "light")
  /\ (themeClassName o ∈ classList (dom w) <-> isDarkMode (rendered w) = true).

(** The events of the update path. *)
Definition isUpdate (e : Event) : bool :=
  match e with
  | EvOnDarkModeChange _ | EvSetInternalDarkMode _ => true
  | _ => false
  end.

(** What holds of every world of a hook run with [isBrowser] false. *)
Definition serverInv {C} (d : Dom) (w : World C) : Prop :=
  dom w = d /\ pending w = [] /\ snapshots w = [head d]
  /\ forallb isUpdate (trace w) = true.

(** The scheduled callbacks that lead to the cleanup: the rest of
    [setTheme] after its [await], and the timer callback. *)
Definition clears (t : Task) : bool :=
  match t with
  | TResume | TCleanup => true
  | TUpdate _ => false
  end.

(** With nothing scheduled that leads to the cleanup, the transition flag
    is down and no fragment is attached under the style identifier. *)
Definition settled {C} (o : Options C) (w : World C) : Prop :=
  existsb clears (pending w) = false ->
  transitioning (cells w) = false /\ alive (styleId o) (head (dom w)) = 0.

(** * Geometry and style synthesis *)

Section Geometry.
Local Open Scope R_scope.

Lemma hypot_3_4_scaled : hypot 300 400 = 500.
Proof.
  unfold hypot.
  replace (300 * 300 + 400 * 400) with (500 * 500) by lra.
  apply sqrt_square; lra.
Qed.

Lemma dist_le x y a b c d :
  (x - a) * (x - a) <= (x - c) * (x - c) ->
  (y - b) * (y - b) <= (y - d) * (y - d) ->
  dist x y a b <= dist x y c d.
Proof.
  intros Hx Hy. unfold dist. apply sqrt_le_1_alt. lra.
Qed.

Lemma maxRadius_farthest x y W H :
  0 <= W -> 0 <= H -> maxRadius x y W H = farthestCorner x y W H.
Proof.
  intros HW HH. unfold maxRadius, farthestCorner, hypot.
  destruct (Rle_dec x (W - x)) as [Hx | Hx];
    destruct (Rle_dec y (H - y)) as [Hy | Hy].
  - rewrite (Rmax_right x), (Rmax_right y) by lra.
    rewrite (Rmax_right (Rmax _ _) (Rmax _ _)).
    + rewrite Rmax_right by (apply dist_le; nra).
      unfold dist. f_equal. lra.
    + apply Rmax_lub; (etransitivity; [| apply Rmax_r]); apply dist_le; nra.
  - rewrite (Rmax_right x), (Rmax_left y) by lra.
    rewrite (Rmax_left (Rmax _ _) (Rmax _ _)).
    + rewrite Rmax_right by (apply dist_le; nra).
      unfold dist. f_equal. lra.
    + apply Rmax_lub; (etransitivity; [| apply Rmax_r]); apply dist_le; nra.
  - rewrite (Rmax_left x), (Rmax_right y) by lra.
    rewrite (Rmax_right (Rmax _ _) (Rmax _ _)).
    + rewrite Rmax_left by (apply dist_le; nra).
      unfold dist. f_equal. lra.
    + apply Rmax_lub; (etransitivity; [| apply Rmax_l]); apply dist_le; nra.
  - rewrite (Rmax_left x), (Rmax_left y) by lra.
    rewrite (Rmax_left (Rmax _ _) (Rmax _ _)).
    + rewrite Rmax_left by (apply dist_le; nra).
      unfold dist. f_equal. lra.
    + apply Rmax_lub; (etransitivity; [| apply Rmax_l]); apply dist_le; nra.
Qed.
End Geometry.

(** C1 (as stated, refuted): for a viewport of 300 by 400 the last step of
    the blur-circle mask keyframes does not have the size
    [hypot 300 400 * 5.5]; its size is [400 * 5.5]. *)
Lemma blur_circle_end_size_not_diagonal :
  maskScaleSize "100%" (blurCircleSheet 750 "ease" 2 150 200 300 400)
  <> Some [Num (hypot 300 400 * 5.5)%R; Txt "px"].
Proof.
  intros Heq. vm_compute in Heq. injection Heq as Heq.
  change (Rmax 300 400 * 5.5 = sqrt (300 * 300 + 400 * 400) * 5.5)%R in Heq.
  change (sqrt (300 * 300 + 400 * 400))%R with (hypot 300 400) in Heq.
  rewrite hypot_3_4_scaled, Rmax_right in Heq; lra.
Qed.

(** C1 (amended): the fragment that [applyBlurCircleTransition] attaches
    carries the configured style identifier, and its mask keyframes grow
    the mask from size 0 to the larger of the viewport's width and height
    multiplied by 5.5, for every viewport. *)
Theorem blur_circle_mask_growth {C} (o : Options C) (x y : R) (w : World C) :
  exists s,
    last (head (dom (applyBlurCircleTransition o x y w)))
      = Some {| el_id := styleId o; textContent := s |}
    /\ maskScaleSize "0%" s = Some [Txt "0px"]
    /\ maskScaleSize "100%" s
       = Some [Num (Rmax (innerWidth (host w)) (innerHeight (host w)) * 5.5)%R; Txt "px"].
Proof.
  eexists. split; [| split].
  - unfold applyBlurCircleTransition, appendChild. simpl. apply last_snoc.
  - reflexivity.
  - reflexivity.
Qed.

Lemma animated_guard {C} (isBrowser : bool) (o : Options C) (w : World C) :
  animated isBrowser o w = true ->
  isBrowser = true
  /\ startViewTransition (host w) = true
  /\ prefersReducedMotion (host w) = false
  /\ animationType o <> NONE.
Proof.
  unfold animated. intros H.
  destruct isBrowser, (startViewTransition (host w)),
    (prefersReducedMotion (host w)), (animationType o); simpl in H;
    try discriminate; repeat split; discriminate.
Qed.

Lemma removeStyle_frame {C} (id : string) (w : World C) :
  host (removeStyle id w) = host w
  /\ cells (removeStyle id w) = cells w
  /\ rendered (removeStyle id w) = rendered w
  /\ caller (removeStyle id w) = caller w
  /\ pending (removeStyle id w) = pending w
  /\ localStorage (dom (removeStyle id w)) = localStorage (dom w)
  /\ mediaListener (dom (removeStyle id w)) = mediaListener (dom w).
Proof.
  unfold removeStyle.
  destruct (getElementById id (head (dom w))); simpl; repeat split; reflexivity.
Qed.

Lemma getElementById_find (id : string) (h : list StyleElement) :
  id <> "" -> getElementById id h = List.find (hasId id) h.
Proof.
  intros Hne. unfold getElementById.
  apply String.eqb_neq in Hne. rewrite Hne. reflexivity.
Qed.

Lemma removeFirst_absent (id : string) (h : list StyleElement) :
  List.find (hasId id) h = None -> removeFirst id h = h.
Proof.
  induction h as [| e t IH]; simpl; [reflexivity |].
  destruct (hasId id e); [discriminate |]. intros Hg. f_equal. auto.
Qed.

Lemma withoutStale_removeFirst (id : string) (h : list StyleElement) :
  id <> "" -> withoutStale id h = removeFirst id h.
Proof.
  intros Hne. unfold withoutStale. rewrite (getElementById_find id h Hne).
  destruct (List.find (hasId id) h) eqn:Hg; [reflexivity |].
  symmetry. apply removeFirst_absent. exact Hg.
Qed.

Lemma removeStyle_head {C} (id : string) (w : World C) :
  head (dom (removeStyle id w)) = withoutStale id (head (dom w)).
Proof.
  unfold removeStyle, withoutStale.
  destruct (getElementById id (head (dom w))); reflexivity.
Qed.

(** The head after an animated [setTheme]: the stale fragment is gone and
    the new fragment is the last element. *)
Lemma setTheme_head {C} (o : Options C) (b : bool) (w : World C) :
  animated true o w = true ->
  exists s,
    head (dom (setTheme true o b w))
    = (withoutStale (styleId o) (head (dom w))
         ++ [{| el_id := styleId o; textContent := s |}])%list
    /\ (animationType o = CIRCLE ->
        s = circleSheet (duration o) (easing o)
              (fst (anchor (host w))) (snd (anchor (host w)))
              (innerWidth (host w)) (innerHeight (host w))).
Proof.
  intros Ha. apply animated_guard in Ha as (_ & Hs & Hr & Hk).
  unfold setTheme. rewrite Hs, Hr. simpl.
  destruct (anchor (host w)) as [x y] eqn:Hxy.
  pose proof (removeStyle_head (styleId o) (log (EvAnchor x y) w)) as Hrm.
  destruct (removeStyle_frame (styleId o) (log (EvAnchor x y) w)) as (Hh & _).
  simpl in Hrm, Hh.
  destruct (animationType o) eqn:Hkind; try congruence; simpl;
    rewrite Hrm; eexists; (split; [reflexivity |]); intros; try discriminate.
  rewrite Hh. reflexivity.
Qed.

(** C7: the anchor is the centre of the bound element's bounding box when
    the ref is bound and the centre of the viewport otherwise; the circle
    kind attaches a fragment whose final clip radius is
    [hypot (max x (W - x)) (max y (H - y))] at that anchor; and for a
    viewport of non-negative width and height this radius is the distance
    from the anchor to the farthest corner of the viewport. *)
Theorem anchor_and_max_radius :
  (forall h r, refCurrent h = Some r -> anchor h = rectCenter r)
  /\ (forall h, refCurrent h = None ->
        anchor h = ((innerWidth h / 2)%R, (innerHeight h / 2)%R))
  /\ (forall C (o : Options C) b (w : World C),
        animated true o w = true -> animationType o = CIRCLE ->
        let x := fst (anchor (host w)) in
        let y := snd (anchor (host w)) in
        let W := innerWidth (host w) in
        let H := innerHeight (host w) in
        exists s,
          last (head (dom (setTheme true o b w)))
            = Some {| el_id := styleId o; textContent := s |}
          /\ expandCircleClip "from" s
             = Some [Txt "circle(0px at "; Num x; Txt "px "; Num y; Txt "px)"]
          /\ expandCircleClip "to" s
             = Some [Txt "circle(";
                     Num (hypot (Rmax x (W - x)%R) (Rmax y (H - y)%R));
                     Txt "px at "; Num x; Txt "px "; Num y; Txt "px)"])
  /\ (forall x y W H, (0 <= W)%R -> (0 <= H)%R ->
        hypot (Rmax x (W - x)%R) (Rmax y (H - y)%R) = farthestCorner x y W H).
Proof.
  split; [| split; [| split]].
  - intros h r Hr. unfold anchor, rectCenter. rewrite Hr. f_equal; lra.
  - intros h Hr. unfold anchor. rewrite Hr. reflexivity.
  - intros C o b w Ha Hk x y W H.
    destruct (setTheme_head o b w Ha) as (s & Hh & Hs).
    exists s. rewrite Hh, last_snoc. rewrite (Hs Hk). repeat split.
  - intros x y W H HW HH. apply (maxRadius_farthest x y W H HW HH).
Qed.

(** C7 on a bound button, on the viewport centre, on the circle kind, and
    at the spec's example of an anchor in the corner of a 100 by 100
    viewport. *)
Lemma anchor_and_max_radius_witness :
  anchor boundHost = rectCenter buttonRect
  /\ anchor sampleHost = ((300 / 2)%R, (400 / 2)%R)
  /\ (exists s,
        last (head (dom (setTheme true (withKind CIRCLE) true
                           (mount true (withKind CIRCLE) sampleHost emptyDom tt))))
          = Some {| el_id := styleId (withKind CIRCLE); textContent := s |}
        /\ expandCircleClip "to" s
           = Some [Txt "circle(";
                   Num (hypot (Rmax (300 / 2) (300 - 300 / 2)%R)
                              (Rmax (400 / 2) (400 - 400 / 2)%R));
                   Txt "px at "; Num (300 / 2)%R; Txt "px "; Num (400 / 2)%R; Txt "px)"])
  /\ hypot (Rmax 0 (100 - 0)%R) (Rmax 0 (100 - 0)%R) = farthestCorner 0 0 100 100.
Proof.
  destruct anchor_and_max_radius as (Hsome & Hnone & Hcircle & Hfar).
  split; [apply Hsome; reflexivity |].
  split; [apply (Hnone sampleHost); reflexivity |].
  split.
  - destruct (Hcircle unit (withKind CIRCLE) true
                (mount true (withKind CIRCLE) sampleHost emptyDom tt)
                eq_refl eq_refl) as (s & Hlast & _ & Hto).
    exists s. split; [exact Hlast | exact Hto].
  - apply Hfar; lra.
Defined.

(** C8: what [getInitialTheme] returns. *)
Theorem getInitialTheme_cases {C} (isBrowser : bool) (o : Options C) (d : Dom) (h : Host) :
  (isBrowser = false -> getInitialTheme isBrowser o d h = false)
  /\ (isBrowser = true ->
      (localStorage d !! storageKey o = Some "dark" ->
         getInitialTheme isBrowser o d h = true)
      /\ (localStorage d !! storageKey o = Some "light" ->
         getInitialTheme isBrowser o d h = false)
      /\ (localStorage d !! storageKey o = None -> respectSystemPreference o = true ->
         getInitialTheme isBrowser o d h = prefersDark h)
      /\ (localStorage d !! storageKey o = None -> respectSystemPreference o = false ->
         getInitialTheme isBrowser o d h = false)).
Proof.
  unfold getInitialTheme. split.
  - intros ->. reflexivity.
  - intros ->. simpl. repeat split.
    + intros ->. rewrite decide_True by reflexivity. reflexivity.
    + intros ->. rewrite decide_False by discriminate.
      rewrite decide_True by reflexivity. reflexivity.
    + intros -> ->. rewrite !decide_False by discriminate. reflexivity.
    + intros -> ->. rewrite !decide_False by discriminate. reflexivity.
Qed.

(** C8 on concrete stores: a stored "dark", an empty store with the
    ambient preference dark, and a server render. *)
Lemma getInitialTheme_cases_witness :
  getInitialTheme true defaultOptions darkDom sampleHost = true
  /\ getInitialTheme true defaultOptions emptyDom darkHost = true
  /\ getInitialTheme false defaultOptions darkDom darkHost = false.
Proof.
  split; [| split].
  - destruct (getInitialTheme_cases true defaultOptions darkDom sampleHost)
      as (_ & Hb).
    destruct (Hb eq_refl) as (Hdark & _). apply Hdark. reflexivity.
  - destruct (getInitialTheme_cases true defaultOptions emptyDom darkHost)
      as (_ & Hb).
    destruct (Hb eq_refl) as (_ & _ & Hamb & _).
    rewrite Hamb; reflexivity.
  - destruct (getInitialTheme_cases false defaultOptions darkDom darkHost)
      as (Hs & _).
    apply Hs. reflexivity.
Defined.

(** * The update path and the direct path *)

Lemma updateDarkMode_frame {C} (o : Options C) (v : bool + (bool -> bool)) (w : World C) :
  host (updateDarkMode o v w) = host w
  /\ dom (updateDarkMode o v w) = dom w
  /\ rendered (updateDarkMode o v w) = rendered w
  /\ pending (updateDarkMode o v w) = pending w
  /\ snapshots (updateDarkMode o v w) = snapshots w
  /\ transitioning (cells (updateDarkMode o v w)) = transitioning (cells w).
Proof.
  unfold updateDarkMode, setInternalDarkMode.
  destruct (onDarkModeChange o); simpl; repeat split; reflexivity.
Qed.

Lemma setTheme_direct_eq {C} (isBrowser : bool) (o : Options C) (b : bool) (w : World C) :
  animated isBrowser o w = false ->
  setTheme isBrowser o b w = updateDarkMode o (inl b) w.
Proof.
  unfold animated, setTheme. intros Ha.
  destruct isBrowser; [| reflexivity].
  destruct (startViewTransition (host w)); [| reflexivity].
  destruct (prefersReducedMotion (host w)); [reflexivity |].
  destruct (animationType o); simpl in *; try discriminate; reflexivity.
Qed.

(** C6: outside a document-capable environment, without the platform's
    visual-transition primitive, under reduced motion, or with the
    animation kind none, [setTheme] is exactly the update path: the theme
    state is set within the call, nothing is scheduled, the document is
    untouched (no style fragment), no anchor is resolved and no platform
    transition is started. *)
Theorem setTheme_direct_path {C} (isBrowser : bool) (o : Options C) (b : bool) (w : World C) :
  isBrowser = false
  \/ startViewTransition (host w) = false
  \/ prefersReducedMotion (host w) = true
  \/ animationType o = NONE ->
  let w' := setTheme isBrowser o b w in
  w' = updateDarkMode o (inl b) w
  /\ match onDarkModeChange o with
     | None => internalDarkMode (cells w') = b /\ caller w' = caller w
     | Some cb => caller w' = cb b (caller w) /\ cells w' = cells w
     end
  /\ dom w' = dom w
  /\ snapshots w' = snapshots w
  /\ pending w' = pending w
  /\ exists e, trace w' = (trace w ++ [e])%list
       /\ (e = EvSetInternalDarkMode b \/ e = EvOnDarkModeChange b).
Proof.
  intros Hd w'.
  assert (Ha : animated isBrowser o w = false).
  { unfold animated.
    destruct Hd as [-> | [-> | [-> | ->]]]; simpl;
      rewrite ?andb_false_r; reflexivity. }
  subst w'. rewrite (setTheme_direct_eq _ _ _ _ Ha).
  unfold updateDarkMode, setInternalDarkMode.
  destruct (onDarkModeChange o); simpl;
    repeat split; eexists; (split; [reflexivity |]); auto.
Qed.

(** C6 with reduced motion active and the fade kind. *)
Lemma setTheme_direct_path_witness :
  let w := mount true (withKind FADE) reducedHost emptyDom tt in
  prefersReducedMotion (host w) = true
  /\ internalDarkMode (cells (setTheme true (withKind FADE) true w)) = true
  /\ dom (setTheme true (withKind FADE) true w) = dom w
  /\ pending (setTheme true (withKind FADE) true w) = [].
Proof.
  intros w.
  assert (Hred : prefersReducedMotion (host w) = true) by reflexivity.
  destruct (setTheme_direct_path true (withKind FADE) true w
              (or_intror (or_intror (or_introl Hred))))
    as (_ & Hstate & Hdom & _ & Hpend & _).
  split; [exact Hred |]. split; [apply Hstate |]. split; [exact Hdom |].
  rewrite Hpend. reflexivity.
Defined.

(** C5: [toggleTheme] called from a render in which [isTransitioning] is
    true returns the world as it was (same theme state, same document, no
    event, nothing scheduled); otherwise it is [setTheme] on the negation
    of the rendered theme state. *)
Theorem toggleTheme_guard {C} (isBrowser : bool) (o : Options C) (w : World C) :
  (isTransitioning (rendered w) = true ->
     toggleTheme isBrowser o w = w
     /\ step isBrowser o AToggleTheme w = w
     /\ started (emitted w (toggleTheme isBrowser o w)) = 0
     /\ appended (styleId o) (emitted w (toggleTheme isBrowser o w)) = 0)
  /\ (isTransitioning (rendered w) = false ->
     toggleTheme isBrowser o w
     = setTheme isBrowser o (negb (isDarkMode (rendered w))) w).
Proof.
  unfold step, toggleTheme, emitted. split; intros ->.
  - rewrite drop_all. repeat split.
  - reflexivity.
Qed.

(** C5 on a run: after an accepted toggle and the render that follows it,
    a second toggle changes nothing; the first one was [setTheme true]. *)
Lemma toggleTheme_guard_witness :
  let o := withKind FADE in
  let w0 := mount true o sampleHost emptyDom tt in
  let w1 := run true o [AToggleTheme; ARender] w0 in
  isTransitioning (rendered w1) = true
  /\ toggleTheme true o w1 = w1
  /\ isTransitioning (rendered w0) = false
  /\ toggleTheme true o w0 = setTheme true o true w0.
Proof.
  intros o w0 w1.
  assert (H1 : isTransitioning (rendered w1) = true) by reflexivity.
  assert (H0 : isTransitioning (rendered w0) = false) by reflexivity.
  destruct (toggleTheme_guard true o w1) as (Hon & _).
  destruct (toggleTheme_guard true o w0) as (_ & Hoff).
  split; [exact H1 |]. split; [apply (Hon H1) |].
  split; [exact H0 |]. apply (Hoff H0).
Defined.

Lemma removeStyle_themeState {C} (id : string) (w : World C) :
  themeState (removeStyle id w) = themeState w.
Proof.
  unfold themeState.
  destruct (removeStyle_frame id w) as (_ & -> & _ & -> & _). reflexivity.
Qed.

Lemma render_themeState {C} (isBrowser : bool) (o : Options C) (w : World C) :
  themeState (render isBrowser o w) = themeState w.
Proof.
  unfold render, applyTheme, themeState.
  destruct (Bool.eqb _ _); simpl; [reflexivity |].
  destruct isBrowser; simpl; [| reflexivity].
  destruct (currentDarkMode o w); reflexivity.
Qed.

Lemma setTheme_themeState {C} (isBrowser : bool) (o : Options C) (b : bool) (w : World C) :
  themeState (setTheme isBrowser o b w) = themeState w
  \/ themeState (setTheme isBrowser o b w) = themeState (updateDarkMode o (inl b) w).
Proof.
  destruct (animated isBrowser o w) eqn:Ha.
  - left. apply animated_guard in Ha as (-> & Hs & Hr & Hk).
    unfold setTheme. rewrite Hs, Hr. simpl.
    destruct (anchor (host w)) as [x y].
    pose proof (removeStyle_themeState (styleId o) (log (EvAnchor x y) w)) as Hrm.
    unfold themeState in *. simpl in Hrm.
    destruct (animationType o); try congruence; simpl; exact Hrm.
  - right. rewrite (setTheme_direct_eq _ _ _ _ Ha). reflexivity.
Qed.

(** C9: a render reports the externally supplied value when there is one
    and the internal cell otherwise (the first render included);
    [updateDarkMode] calls the change callback and leaves the internal
    cell alone when a callback was supplied, and writes the internal cell
    and leaves the caller alone when none was; and every operation of the
    hook either leaves the theme state as it was or changes it as one call
    of [updateDarkMode] does. *)
Theorem single_update_path {C} (isBrowser : bool) (o : Options C) :
  (forall w : World C,
     isDarkMode (rendered (render isBrowser o w))
     = match externalDarkMode o (caller w) with
       | Some ext => ext
       | None => internalDarkMode (cells w)
       end)
  /\ (forall h d c,
     isDarkMode (rendered (mount isBrowser o h d c))
     = match externalDarkMode o c with
       | Some ext => ext
       | None => getInitialTheme isBrowser o d h
       end)
  /\ (forall v (w : World C) cb, onDarkModeChange o = Some cb ->
     let w' := updateDarkMode o v w in
     caller w' = cb (newValue v w) (caller w)
     /\ cells w' = cells w
     /\ trace w' = (trace w ++ [EvOnDarkModeChange (newValue v w)])%list)
  /\ (forall v (w : World C), onDarkModeChange o = None ->
     let w' := updateDarkMode o v w in
     internalDarkMode (cells w') = newValue v w
     /\ caller w' = caller w
     /\ trace w' = (trace w ++ [EvSetInternalDarkMode (newValue v w)])%list)
  /\ (forall a (w : World C), (forall f, a <> ACaller f) ->
     themeState (step isBrowser o a w) = themeState w
     \/ exists b, themeState (step isBrowser o a w)
                  = themeState (updateDarkMode o (inl b) w)).
Proof.
  split; [| split; [| split; [| split]]].
  - intros w. unfold render, applyTheme, currentDarkMode.
    destruct (Bool.eqb _ _); simpl; [reflexivity |].
    destruct isBrowser; simpl; [| reflexivity].
    destruct (externalDarkMode o (caller w)) as [[|] |];
      simpl; try reflexivity.
    destruct (internalDarkMode (cells w)); reflexivity.
  - intros h d c. unfold mount, subscribe, applyTheme, injectBaseStyle.
    destruct isBrowser; simpl; [| reflexivity].
    destruct (getElementById baseStyleId (head d)); simpl;
      destruct (externalDarkMode o c) as [[|] |]; simpl;
      try (destruct (getInitialTheme true o d h)); simpl;
      destruct (respectSystemPreference o); reflexivity.
  - intros v w cb Hcb w'. subst w'. unfold updateDarkMode. rewrite Hcb.
    repeat split.
  - intros v w Hcb w'. subst w'. unfold updateDarkMode. rewrite Hcb.
    repeat split.
  - intros a w Hhook. destruct a as [b | | i | | m | W H reduced r | f]; simpl.
    + destruct (setTheme_themeState isBrowser o b w) as [Hs | Hs]; eauto.
    + unfold toggleTheme. destruct (isTransitioning (rendered w)); [auto |].
      destruct (setTheme_themeState isBrowser o (negb (isDarkMode (rendered w))) w);
        eauto.
    + destruct (pending w !! i) as [[b | |] |]; simpl; auto.
      * right. exists b. unfold flushSync. rewrite render_themeState.
        unfold themeState, updateDarkMode, setInternalDarkMode.
        destruct (onDarkModeChange o); reflexivity.
      * left. unfold themeState, setIsTransitioning. simpl.
        pose proof (removeStyle_themeState (styleId o)
                      (with_pending (delete i (pending w)) w)) as Hrm.
        unfold themeState in Hrm. simpl in Hrm.
        injection Hrm as -> ->. reflexivity.
    + left. apply render_themeState.
    + destruct (mediaListener (dom w)); [| auto].
      unfold handleChange. simpl.
      destruct (truthy (localStorage (dom w) !! storageKey o)); simpl; [auto |].
      right. exists m. unfold themeState, updateDarkMode, setInternalDarkMode.
      destruct (onDarkModeChange o); reflexivity.
    + auto.
    + exfalso. apply (Hhook f). reflexivity.
Qed.

(** C9 for a caller that owns the theme, and for the hook owning it. *)
Lemma single_update_path_witness :
  let w := mount true (controlled FADE) sampleHost emptyDom false in
  caller (updateDarkMode (controlled FADE) (inl true) w) = true
  /\ cells (updateDarkMode (controlled FADE) (inl true) w) = cells w
  /\ internalDarkMode
       (cells (updateDarkMode (withKind FADE) (inl true)
                 (mount true (withKind FADE) sampleHost emptyDom tt))) = true.
Proof.
  intros w.
  destruct (single_update_path true (controlled FADE)) as (_ & _ & Hcb & _).
  destruct (Hcb (inl true) w (fun b _ => b) eq_refl) as (Hc & Hcells & _).
  destruct (single_update_path true (withKind FADE)) as (_ & _ & _ & Hint & _).
  destruct (Hint (inl true) (mount true (withKind FADE) sampleHost emptyDom tt) eq_refl)
    as (Hi & _).
  split; [exact Hc |]. split; [exact Hcells | exact Hi].
Defined.

(** * The animated path *)

Lemma removeStyle_trace {C} (id : string) (w : World C) :
  trace (removeStyle id w) = (trace w ++ staleRemoval id w)%list.
Proof.
  unfold removeStyle, staleRemoval.
  destruct (getElementById id (head (dom w))); simpl;
    [reflexivity | symmetry; apply app_nil_r].
Qed.

(** The events of an animated [setTheme], in program order. *)
Lemma setTheme_trace {C} (isBrowser : bool) (o : Options C) (b : bool) (w : World C) :
  animated isBrowser o w = true ->
  trace (setTheme isBrowser o b w)
  = (trace w
     ++ [EvAnchor (fst (anchor (host w))) (snd (anchor (host w)))]
     ++ staleRemoval (styleId o) w
     ++ match animationType o with
        | CIRCLE => [EvSetIsTransitioning true; EvStartViewTransition;
                     EvStyleAppended (styleId o)]
        | _ => [EvStyleAppended (styleId o); EvSetIsTransitioning true;
                EvStartViewTransition]
        end)%list.
Proof.
  intros Ha. apply animated_guard in Ha as (-> & Hs & Hr & Hk).
  unfold setTheme. rewrite Hs, Hr. simpl.
  destruct (anchor (host w)) as [x y]. simpl.
  pose proof (removeStyle_trace (styleId o) (log (EvAnchor x y) w)) as Hrm.
  unfold staleRemoval in Hrm. simpl in Hrm. fold (staleRemoval (styleId o) w) in Hrm.
  destruct (animationType o); try congruence; simpl; rewrite Hrm;
    rewrite <- !app_assoc; reflexivity.
Qed.

Lemma setTheme_pending {C} (isBrowser : bool) (o : Options C) (b : bool) (w : World C) :
  animated isBrowser o w = true ->
  pending (setTheme isBrowser o b w) = (pending w ++ [TUpdate b; TResume])%list.
Proof.
  intros Ha. apply animated_guard in Ha as (-> & Hs & Hr & Hk).
  unfold setTheme. rewrite Hs, Hr. simpl.
  destruct (anchor (host w)) as [x y].
  destruct (removeStyle_frame (styleId o) (log (EvAnchor x y) w))
    as (_ & _ & _ & _ & Hp & _).
  simpl in Hp.
  destruct (animationType o); try congruence; simpl; rewrite Hp;
    rewrite <- app_assoc; reflexivity.
Qed.

Lemma emitted_app {C} (w w' : World C) (evs : list Event) :
  trace w' = (trace w ++ evs)%list -> emitted w w' = evs.
Proof.
  intros H. unfold emitted. rewrite H. apply drop_app_length.
Qed.

(** C3 (as stated, refuted): with the circle kind on the animated path
    the fragment is attached after the platform transition was started. *)
Lemma circle_fragment_follows_start :
  let o := withKind CIRCLE in
  let w := mount true o sampleHost emptyDom tt in
  let w' := setTheme true o true w in
  animated true o w = true
  /\ emitted w w'
     = [EvAnchor (300 / 2) (400 / 2); EvSetIsTransitioning true;
        EvStartViewTransition; EvStyleAppended (styleId o)]
  /\ appendsAfterStart (styleId o) (emitted w w') = true.
Proof.
  repeat split.
Qed.

(** C3 (amended): on the animated path the fade, slide and blur-circle
    kinds attach their fragment before the platform transition is started;
    the circle kind attaches its fragment right after the start call, in
    the same synchronous run, while the update callback given to the
    platform is still waiting to be called. *)
Theorem synthesis_order {C} (isBrowser : bool) (o : Options C) (b : bool) (w : World C) :
  animated isBrowser o w = true ->
  let w' := setTheme isBrowser o b w in
  let before := ([EvAnchor (fst (anchor (host w))) (snd (anchor (host w)))]
                 ++ staleRemoval (styleId o) w)%list in
  (animationType o <> CIRCLE ->
     emitted w w'
     = (before ++ [EvStyleAppended (styleId o); EvSetIsTransitioning true;
                   EvStartViewTransition])%list
     /\ appendsAfterStart (styleId o) (emitted w w') = false)
  /\ (animationType o = CIRCLE ->
     emitted w w'
     = (before ++ [EvSetIsTransitioning true; EvStartViewTransition;
                   EvStyleAppended (styleId o)])%list)
  /\ pending w' = (pending w ++ [TUpdate b; TResume])%list.
Proof.
  intros Ha w' before. subst w' before.
  pose proof (setTheme_trace isBrowser o b w Ha) as Ht.
  apply emitted_app in Ht.
  split; [| split].
  - intros Hk. rewrite Ht.
    assert (Hkind : match animationType o with
                    | CIRCLE => [EvSetIsTransitioning true; EvStartViewTransition;
                                 EvStyleAppended (styleId o)]
                    | _ => [EvStyleAppended (styleId o); EvSetIsTransitioning true;
                            EvStartViewTransition]
                    end
                    = [EvStyleAppended (styleId o); EvSetIsTransitioning true;
                       EvStartViewTransition])
      by (destruct (animationType o); congruence).
    rewrite Hkind, <- app_assoc. split; [reflexivity |].
    unfold staleRemoval. simpl.
    destruct (getElementById (styleId o) (head (dom w))); reflexivity.
  - intros Hk. rewrite Ht, Hk, <- app_assoc. reflexivity.
  - apply setTheme_pending. exact Ha.
Qed.

(** C3 (amended) on the fade and the circle kinds. *)
Lemma synthesis_order_witness :
  let w := mount true (withKind FADE) sampleHost emptyDom tt in
  let w' := mount true (withKind CIRCLE) sampleHost emptyDom tt in
  appendsAfterStart (styleId (withKind FADE))
    (emitted w (setTheme true (withKind FADE) true w)) = false
  /\ pending (setTheme true (withKind CIRCLE) false w') = [TUpdate false; TResume].
Proof.
  intros w w'.
  destruct (synthesis_order true (withKind FADE) true w eq_refl) as (Hfade & _).
  destruct (synthesis_order true (withKind CIRCLE) false w' eq_refl) as (_ & _ & Hp).
  split.
  - apply Hfade. discriminate.
  - rewrite Hp. reflexivity.
Defined.




(** * One fragment per identifier *)

Local Open Scope list_scope.

Lemma hasId_true (id : string) (e : StyleElement) :
  hasId id e = true <-> el_id e = id.
Proof. unfold hasId. apply String.eqb_eq. Qed.

Lemma alive_snoc (id : string) (h : list StyleElement) (e : StyleElement) :
  alive id (h ++ [e]) = alive id h + (if hasId id e then 1 else 0).
Proof.
  unfold alive. rewrite List.filter_app, length_app. simpl.
  destruct (hasId id e); reflexivity.
Qed.

Lemma alive_removeFirst_le (id id' : string) (h : list StyleElement) :
  alive id' (removeFirst id h) <= alive id' h.
Proof.
  unfold alive. induction h as [| e t IH]; simpl; [lia |].
  destruct (hasId id e); simpl; destruct (hasId id' e); simpl; lia.
Qed.

Lemma alive_removeFirst_self (id : string) (h : list StyleElement) :
  alive id h <= 1 -> alive id (removeFirst id h) = 0.
Proof.
  unfold alive. induction h as [| e t IH]; simpl; [reflexivity |].
  destruct (hasId id e) eqn:He; simpl; [lia |].
  rewrite He. exact IH.
Qed.

Lemma alive_absent (id : string) (h : list StyleElement) :
  id <> "" -> getElementById id h = None -> alive id h = 0.
Proof.
  intros Hne. rewrite (getElementById_find id h Hne).
  unfold alive. induction h as [| e t IH]; simpl; [reflexivity |].
  destruct (hasId id e); [discriminate | exact IH].
Qed.

Lemma alive_withoutStale_le (id id' : string) (h : list StyleElement) :
  alive id' (withoutStale id h) <= alive id' h.
Proof.
  unfold withoutStale. destruct (getElementById id h); [| lia].
  apply alive_removeFirst_le.
Qed.

Lemma alive_withoutStale_self (id : string) (h : list StyleElement) :
  id <> "" -> alive id h <= 1 -> alive id (withoutStale id h) = 0.
Proof.
  intros Hne Hone. rewrite (withoutStale_removeFirst id h Hne).
  apply alive_removeFirst_self. exact Hone.
Qed.

Lemma headInv_append (id : string) (h : list StyleElement) ss (e : StyleElement) :
  headInv id h ss -> (hasId id e = true -> alive id h = 0) ->
  headInv id (h ++ [e]) (ss ++ [h ++ [e]]).
Proof.
  intros (Hh & Hss & _) Hfree.
  assert (Hnew : alive id (h ++ [e]) <= 1).
  { rewrite alive_snoc. destruct (hasId id e) eqn:He.
    - rewrite (Hfree eq_refl). lia.
    - lia. }
  split; [exact Hnew |]. split.
  - apply Forall_app. split; [exact Hss | constructor; [exact Hnew | constructor]].
  - apply last_snoc.
Qed.

Lemma headInv_without (id id' : string) (h : list StyleElement) ss :
  headInv id h ss -> headInv id (withoutStale id' h) (ss ++ [withoutStale id' h]).
Proof.
  intros (Hh & Hss & _).
  assert (Hnew : alive id (withoutStale id' h) <= 1).
  { pose proof (alive_withoutStale_le id' id h). lia. }
  split; [exact Hnew |]. split.
  - apply Forall_app. split; [exact Hss | constructor; [exact Hnew | constructor]].
  - apply last_snoc.
Qed.

Lemma worldInv_same {C} (id : string) (w w' : World C) :
  head (dom w') = head (dom w) -> snapshots w' = snapshots w ->
  worldInv id w -> worldInv id w'.
Proof. unfold worldInv. intros -> ->. auto. Qed.

Lemma removeStyle_inv {C} (id id' : string) (w : World C) :
  worldInv id w -> worldInv id (removeStyle id' w).
Proof.
  intros Hw. unfold removeStyle.
  pose proof (headInv_without id id' _ _ Hw) as Hrm. unfold withoutStale in Hrm.
  destruct (getElementById id' (head (dom w))); [exact Hrm | exact Hw].
Qed.

Lemma removeStyle_clear {C} (id : string) (w : World C) :
  id <> "" -> alive id (head (dom w)) <= 1 ->
  alive id (head (dom (removeStyle id w))) = 0.
Proof.
  intros Hne Hone. rewrite removeStyle_head.
  apply alive_withoutStale_self; assumption.
Qed.

Lemma appendChild_inv {C} (id : string) (e : StyleElement) (w : World C) :
  worldInv id w -> (hasId id e = true -> alive id (head (dom w)) = 0) ->
  worldInv id (appendChild e w).
Proof.
  intros Hw Hfree. unfold worldInv, appendChild. simpl.
  apply headInv_append; assumption.
Qed.

Lemma updateDarkMode_inv {C} (o : Options C) (id : string) v (w : World C) :
  worldInv id w -> worldInv id (updateDarkMode o v w).
Proof.
  destruct (updateDarkMode_frame o v w) as (_ & Hd & _ & _ & Hs & _).
  apply worldInv_same; [rewrite Hd; reflexivity | exact Hs].
Qed.

Lemma render_head {C} (isBrowser : bool) (o : Options C) (w : World C) :
  head (dom (render isBrowser o w)) = head (dom w)
  /\ snapshots (render isBrowser o w) = snapshots w
  /\ pending (render isBrowser o w) = pending w
  /\ trace (render isBrowser o w) = trace w
  /\ mediaListener (dom (render isBrowser o w)) = mediaListener (dom w).
Proof.
  unfold render, applyTheme.
  destruct (Bool.eqb _ _); simpl; [repeat split |].
  destruct isBrowser; simpl; [| repeat split].
  destruct (currentDarkMode o w); repeat split.
Qed.

Lemma render_inv {C} (isBrowser : bool) (o : Options C) (id : string) (w : World C) :
  worldInv id w -> worldInv id (render isBrowser o w).
Proof.
  destruct (render_head isBrowser o w) as (Hh & Hs & _).
  apply worldInv_same; assumption.
Qed.

Lemma setTheme_inv {C} (isBrowser : bool) (o : Options C) (b : bool) (id : string)
    (w : World C) :
  styleId o <> "" -> worldInv id w -> worldInv id (setTheme isBrowser o b w).
Proof.
  intros Hne Hw. destruct (animated isBrowser o w) eqn:Ha.
  - apply animated_guard in Ha as (-> & Hs & Hr & Hk).
    unfold setTheme. rewrite Hs, Hr. simpl.
    destruct (anchor (host w)) as [x y].
    pose proof (removeStyle_inv id (styleId o) (log (EvAnchor x y) w) Hw) as H1.
    assert (Hfree : forall s, hasId id {| el_id := styleId o; textContent := s |} = true ->
                      alive id (head (dom (removeStyle (styleId o) (log (EvAnchor x y) w)))) = 0).
    { intros s He. apply hasId_true in He. simpl in He. subst id.
      apply removeStyle_clear; [exact Hne |]. destruct Hw as (Hone & _). exact Hone. }
    set (w1 := removeStyle (styleId o) (log (EvAnchor x y) w)) in *.
    destruct (animationType o); try congruence; simpl.
    + apply (worldInv_same id
               (appendChild
                  {| el_id := styleId o;
                     textContent := circleSheet (duration o) (easing o) x y
                                      (innerWidth (host w1)) (innerHeight (host w1)) |}
                  (callStartViewTransition b (setIsTransitioning true w1))));
        [reflexivity | reflexivity |].
      apply appendChild_inv; [exact H1 | apply Hfree].
    + apply (worldInv_same id (applyBlurCircleTransition o x y w1));
        [reflexivity | reflexivity |].
      apply appendChild_inv; [exact H1 | apply Hfree].
    + apply (worldInv_same id (applyFadeTransition o w1));
        [reflexivity | reflexivity |].
      apply appendChild_inv; [exact H1 | apply Hfree].
    + apply (worldInv_same id (applySlideTransition o w1));
        [reflexivity | reflexivity |].
      apply appendChild_inv; [exact H1 | apply Hfree].
  - rewrite (setTheme_direct_eq _ _ _ _ Ha). apply updateDarkMode_inv. exact Hw.
Qed.

Lemma step_inv {C} (isBrowser : bool) (o : Options C) (a : Action) (id : string)
    (w : World C) :
  styleId o <> "" -> worldInv id w -> worldInv id (step isBrowser o a w).
Proof.
  intros Hne Hw. destruct a as [b | | i | | m | W H reduced r | f]; simpl.
  - apply setTheme_inv; assumption.
  - unfold toggleTheme. destruct (isTransitioning (rendered w)); [exact Hw |].
    apply setTheme_inv; assumption.
  - destruct (pending w !! i) as [[b | |] |]; simpl; [| exact Hw | | exact Hw].
    + apply render_inv, updateDarkMode_inv. exact Hw.
    + apply (removeStyle_inv id (styleId o) (with_pending (delete i (pending w)) w) Hw).
  - apply render_inv. exact Hw.
  - destruct (mediaListener (dom w)); [| exact Hw].
    unfold handleChange. simpl.
    destruct (truthy (localStorage (dom w) !! storageKey o)); simpl; [exact Hw |].
    apply updateDarkMode_inv. exact Hw.
  - exact Hw.
  - exact Hw.
Qed.


Lemma mount_inv {C} (isBrowser : bool) (o : Options C) (h : Host) (d : Dom) (c : C)
    (id : string) :
  alive id (head d) <= 1 -> worldInv id (mount isBrowser o h d c).
Proof.
  intros Hd. unfold mount.
  match goal with
  | |- worldInv _ (subscribe _ _ (applyTheme _ _ (injectBaseStyle _ ?w))) =>
      set (w0 := w)
  end.
  assert (H0 : worldInv id w0).
  { unfold worldInv, headInv. simpl. repeat split; [exact Hd |].
    constructor; [exact Hd | constructor]. }
  assert (H1 : worldInv id (injectBaseStyle isBrowser w0)).
  { unfold injectBaseStyle. destruct isBrowser; [| exact H0].
    destruct (getElementById baseStyleId (head (dom w0))) eqn:Hg; [exact H0 |].
    apply appendChild_inv; [exact H0 |].
    intros He. apply hasId_true in He. simpl in He. subst id.
    apply alive_absent; [discriminate | exact Hg]. }
  revert H1. generalize (injectBaseStyle isBrowser w0). intros w1 H1.
  eapply worldInv_same; [| | exact H1];
    unfold subscribe, applyTheme;
    destruct isBrowser; simpl; try reflexivity;
    destruct (isDarkMode (rendered w1)), (respectSystemPreference o); reflexivity.
Qed.




(** * Persistence and the ambient-preference listener *)

Lemma stored_same {C} (o : Options C) (w w' : World C) :
  localStorage (dom w') = localStorage (dom w) -> stored o w -> stored o w'.
Proof. unfold stored. intros ->. auto. Qed.

Lemma applyTheme_stored {C} (o : Options C) (w : World C) :
  stored o (applyTheme true o w).
Proof.
  unfold stored, applyTheme. simpl.
  destruct (isDarkMode (rendered w)); simpl; rewrite lookup_insert_eq; auto.
Qed.

Lemma render_stored {C} (isBrowser : bool) (o : Options C) (w : World C) :
  stored o w -> stored o (render isBrowser o w).
Proof.
  intros Hw. unfold render.
  destruct (Bool.eqb _ _); [exact Hw |].
  destruct isBrowser; [apply applyTheme_stored | exact Hw].
Qed.

Lemma updateDarkMode_stored {C} (o : Options C) v (w : World C) :
  stored o w -> stored o (updateDarkMode o v w).
Proof.
  destruct (updateDarkMode_frame o v w) as (_ & Hd & _).
  apply stored_same. rewrite Hd. reflexivity.
Qed.

Lemma removeStyle_stored {C} (o : Options C) (id : string) (w : World C) :
  stored o w -> stored o (removeStyle id w).
Proof.
  destruct (removeStyle_frame id w) as (_ & _ & _ & _ & _ & Hl & _).
  apply stored_same. exact Hl.
Qed.

Lemma setTheme_stored {C} (isBrowser : bool) (o : Options C) (b : bool) (w : World C) :
  stored o w -> stored o (setTheme isBrowser o b w).
Proof.
  intros Hw. destruct (animated isBrowser o w) eqn:Ha.
  - apply animated_guard in Ha as (-> & Hs & Hr & Hk).
    unfold setTheme. rewrite Hs, Hr. simpl.
    destruct (anchor (host w)) as [x y].
    pose proof (removeStyle_stored o (styleId o) (log (EvAnchor x y) w) Hw) as H1.
    revert H1. generalize (removeStyle (styleId o) (log (EvAnchor x y) w)).
    intros w1 H1.
    destruct (animationType o); try congruence; exact H1.
  - rewrite (setTheme_direct_eq _ _ _ _ Ha). apply updateDarkMode_stored. exact Hw.
Qed.

Lemma handleChange_stored {C} (o : Options C) (m : bool) (w : World C) :
  stored o w -> handleChange o m w = w.
Proof.
  unfold stored, handleChange. intros [-> | ->]; reflexivity.
Qed.

Lemma step_stored {C} (isBrowser : bool) (o : Options C) (a : Action) (w : World C) :
  stored o w -> stored o (step isBrowser o a w).
Proof.
  intros Hw. destruct a as [b | | i | | m | W H reduced r | f]; simpl.
  - apply setTheme_stored. exact Hw.
  - unfold toggleTheme. destruct (isTransitioning (rendered w)); [exact Hw |].
    apply setTheme_stored. exact Hw.
  - destruct (pending w !! i) as [[b | |] |]; simpl; [| exact Hw | | exact Hw].
    + apply render_stored, updateDarkMode_stored. exact Hw.
    + apply (removeStyle_stored o (styleId o) (with_pending (delete i (pending w)) w) Hw).
  - apply render_stored. exact Hw.
  - destruct (mediaListener (dom w)); [| exact Hw].
    rewrite handleChange_stored; exact Hw.
  - exact Hw.
  - exact Hw.
Qed.

Lemma run_stored {C} (isBrowser : bool) (o : Options C) (acts : list Action) (w : World C) :
  stored o w -> stored o (run isBrowser o acts w).
Proof.
  unfold run. revert w.
  induction acts as [| a acts IH]; intros w Hw; simpl; [exact Hw |].
  apply IH, step_stored, Hw.
Qed.

Lemma mount_stored {C} (o : Options C) (h : Host) (d : Dom) (c : C) :
  stored o (mount true o h d c).
Proof.
  unfold mount.
  match goal with
  | |- stored _ (subscribe _ _ (applyTheme _ _ ?w)) =>
      generalize (applyTheme_stored o w); generalize (applyTheme true o w)
  end.
  intros w1. apply stored_same. unfold subscribe. simpl.
  destruct (respectSystemPreference o); reflexivity.
Qed.

(** C10: in a document-capable environment the effect that applies the
    theme always leaves "dark" or "light" under the configured storage
    key, the first render included; the hook never removes that entry, so
    it is there after mounting and after any sequence of operations,
    callbacks, renders and ambient-preference notifications; and from then
    on the listener's handler returns the world as it was, so that a
    notification changes neither the theme state nor what is rendered, and
    calls nothing. *)
Theorem ambient_handler_inert {C} (o : Options C) (h : Host) (d : Dom) (c : C)
    (acts : list Action) :
  (forall w : World C, stored o (applyTheme true o w))
  /\ stored o (mount true o h d c)
  /\ let w := run true o acts (mount true o h d c) in
     stored o w
     /\ forall m,
          handleChange o m w = w
          /\ themeState (step true o (AAmbient m) w) = themeState w
          /\ rendered (step true o (AAmbient m) w) = rendered w
          /\ trace (step true o (AAmbient m) w) = trace w
          /\ dom (step true o (AAmbient m) w) = dom w.
Proof.
  split; [intros w; apply applyTheme_stored |].
  split; [apply mount_stored |].
  intros w.
  assert (Hw : stored o w) by (apply run_stored, mount_stored).
  split; [exact Hw |]. intros m.
  split; [apply handleChange_stored; exact Hw |].
  simpl. destruct (mediaListener (dom w)); [| repeat split].
  rewrite handleChange_stored by exact Hw. repeat split.
Qed.

(** * Further properties of the synthesized fragments *)

(** The head after an animated [setTheme], with the sheet of the
    configured kind. *)
Lemma setTheme_fragment {C} (o : Options C) (b : bool) (w : World C) :
  animated true o w = true ->
  head (dom (setTheme true o b w))
  = withoutStale (styleId o) (head (dom w))
    ++ [{| el_id := styleId o;
           textContent := kindSheet o (fst (anchor (host w))) (snd (anchor (host w)))
                            (innerWidth (host w)) (innerHeight (host w)) |}].
Proof.
  intros Ha. apply animated_guard in Ha as (_ & Hs & Hr & Hk).
  unfold setTheme, kindSheet. rewrite Hs, Hr. simpl.
  destruct (anchor (host w)) as [x y] eqn:Hxy.
  pose proof (removeStyle_head (styleId o) (log (EvAnchor x y) w)) as Hrm.
  destruct (removeStyle_frame (styleId o) (log (EvAnchor x y) w)) as (Hh & _).
  simpl in Hrm, Hh.
  destruct (animationType o) eqn:Hkind; try congruence; simpl;
    rewrite Hrm, ?Hh; reflexivity.
Qed.

(** X1: the fragment an animated [setTheme] attaches names, in its animation
    declarations, exactly the keyframes it defines, and every one of
    these declarations runs for the configured duration with the
    configured easing. *)
Theorem fragment_animations_defined {C} (o : Options C) (b : bool) (w : World C) :
  animated true o w = true ->
  exists s,
    last (head (dom (setTheme true o b w)))
      = Some {| el_id := styleId o; textContent := s |}
    /\ animations s <> []
    /\ map fst (animations s) = keyframeNames s
    /\ Forall (fun a => snd a = Some (duration o, easing o)) (animations s).
Proof.
  intros Ha. rewrite (setTheme_fragment o b w Ha), last_snoc.
  eexists. split; [reflexivity |].
  apply animated_guard in Ha as (_ & _ & _ & Hk).
  unfold kindSheet.
  destruct (animationType o); try congruence;
    try (destruct (slideDirection o));
    (split; [discriminate | split; [reflexivity |]]);
    repeat constructor.
Qed.

Lemma fragment_animations_defined_witness :
  let o := withKind SLIDE in
  let w := mount true o sampleHost emptyDom tt in
  animated true o w = true
  /\ exists s,
       last (head (dom (setTheme true o true w)))
         = Some {| el_id := styleId o; textContent := s |}
       /\ map fst (animations s) = keyframeNames s.
Proof.
  intros o w.
  assert (Ha : animated true o w = true) by reflexivity.
  split; [exact Ha |].
  destruct (fragment_animations_defined o true w Ha) as (s & Hl & _ & Hn & _).
  exists s. split; [exact Hl | exact Hn].
Defined.

(** X2: the blur-circle mask stays centred on the anchor: at the first step
    it has size 0 and sits at the anchor, and at the last step its
    position is the anchor moved back by half its size on both axes. *)
Theorem blur_mask_centred {C} (o : Options C) (x y : R) (w : World C) :
  let size := (Rmax (innerWidth (host w)) (innerHeight (host w)) * 5.5)%R in
  exists s px py,
    last (head (dom (applyBlurCircleTransition o x y w)))
      = Some {| el_id := styleId o; textContent := s |}
    /\ maskScaleSize "0%" s = Some [Txt "0px"]
    /\ maskScalePosition "0%" s = Some [Num x; Txt "px "; Num y; Txt "px"]
    /\ maskScalePosition "100%" s = Some [Num px; Txt "px "; Num py; Txt "px"]
    /\ maskScaleSize "100%" s = Some [Num size; Txt "px"]
    /\ (px + size / 2 = x)%R
    /\ (py + size / 2 = y)%R.
Proof.
  intros size. eexists _, _, _.
  split; [unfold applyBlurCircleTransition, appendChild; simpl; apply last_snoc |].
  split; [reflexivity |].
  split; [reflexivity |]. split; [reflexivity |]. split; [reflexivity |].
  subst size. split; lra.
Qed.

Section CircleCover.
Local Open Scope R_scope.

Lemma square_le_of_abs (a m : R) : - m <= a <= m -> a * a <= m * m.
Proof. intros [Hl Hu]. nra. Qed.

(** X3: the final clip circle of the circle kind covers the viewport: every
    point of a viewport of width [W] and height [H] lies within
    [maxRadius] of the anchor, wherever the anchor is; and when the anchor
    is inside the viewport the radius is at most the viewport's
    diagonal. *)
Theorem circle_covers_viewport (x y W H : R) :
  (forall px py, 0 <= px <= W -> 0 <= py <= H ->
     dist x y px py <= maxRadius x y W H)
  /\ (0 <= x <= W -> 0 <= y <= H -> maxRadius x y W H <= hypot W H).
Proof.
  split.
  - intros px py [Hx0 HxW] [Hy0 HyH]. unfold dist, maxRadius, hypot.
    pose proof (Rmax_l x (W - x)). pose proof (Rmax_r x (W - x)).
    pose proof (Rmax_l y (H - y)). pose proof (Rmax_r y (H - y)).
    apply sqrt_le_1_alt.
    apply Rplus_le_compat; apply square_le_of_abs; lra.
  - intros [Hx0 HxW] [Hy0 HyH]. unfold maxRadius, hypot.
    pose proof (Rmax_l x (W - x)). pose proof (Rmax_l y (H - y)).
    assert (Rmax x (W - x) <= W) by (apply Rmax_lub; lra).
    assert (Rmax y (H - y) <= H) by (apply Rmax_lub; lra).
    apply sqrt_le_1_alt.
    apply Rplus_le_compat; apply square_le_of_abs; lra.
Qed.

Lemma circle_covers_viewport_witness :
  dist 20 390 300 0 <= maxRadius 20 390 300 400
  /\ maxRadius 20 390 300 400 <= hypot 300 400.
Proof.
  destruct (circle_covers_viewport 20 390 300 400) as (Hcover & Hdiag).
  split.
  - apply Hcover; lra.
  - apply Hdiag; lra.
Defined.
End CircleCover.

(** * Further properties of the operations *)

Lemma removeStyle_classList {C} (id : string) (w : World C) :
  classList (dom (removeStyle id w)) = classList (dom w)
  /\ snapshots (removeStyle id w)
     = snapshots w ++ match getElementById id (head (dom w)) with
                      | Some _ => [removeFirst id (head (dom w))]
                      | None => []
                      end.
Proof.
  unfold removeStyle.
  destruct (getElementById id (head (dom w))); simpl;
    rewrite ?app_nil_r; split; reflexivity.
Qed.

Lemma alive_removeFirst_other (id id' : string) (h : list StyleElement) :
  id' <> id -> alive id' (removeFirst id h) = alive id' h.
Proof.
  intros Hne. unfold alive. induction h as [| e t IH]; simpl; [reflexivity |].
  destruct (hasId id e) eqn:He; simpl.
  - destruct (hasId id' e) eqn:He'; [| reflexivity].
    apply hasId_true in He, He'. congruence.
  - destruct (hasId id' e); simpl; rewrite IH; reflexivity.
Qed.

Lemma alive_withoutStale_other (id id' : string) (h : list StyleElement) :
  id' <> id -> alive id' (withoutStale id h) = alive id' h.
Proof.
  intros Hne. unfold withoutStale. destruct (getElementById id h); [| reflexivity].
  apply alive_removeFirst_other. exact Hne.
Qed.

(** What an animated [setTheme] leaves alone, and the flag it sets. *)
Lemma setTheme_animated_frame {C} (o : Options C) (b : bool) (w : World C) :
  animated true o w = true ->
  let w' := setTheme true o b w in
  host w' = host w
  /\ rendered w' = rendered w
  /\ caller w' = caller w
  /\ internalDarkMode (cells w') = internalDarkMode (cells w)
  /\ transitioning (cells w') = true
  /\ classList (dom w') = classList (dom w)
  /\ localStorage (dom w') = localStorage (dom w)
  /\ mediaListener (dom w') = mediaListener (dom w).
Proof.
  intros Ha. apply animated_guard in Ha as (_ & Hs & Hr & Hk).
  unfold setTheme. rewrite Hs, Hr. simpl.
  destruct (anchor (host w)) as [x y].
  destruct (removeStyle_frame (styleId o) (log (EvAnchor x y) w))
    as (Hh & Hc & Hrd & Hcl & _ & Hls & Hml).
  destruct (removeStyle_classList (styleId o) (log (EvAnchor x y) w)) as (Hcs & _).
  simpl in *.
  destruct (animationType o); try congruence; simpl;
    rewrite ?Hh, ?Hc, ?Hrd, ?Hcl, ?Hls, ?Hml, ?Hcs; repeat split.
Qed.

Lemma setTheme_rendered {C} (isBrowser : bool) (o : Options C) (b : bool) (w : World C) :
  rendered (setTheme isBrowser o b w) = rendered w
  /\ host (setTheme isBrowser o b w) = host w.
Proof.
  destruct (animated isBrowser o w) eqn:Ha.
  - pose proof Ha as Hg. apply animated_guard in Hg as (-> & _).
    destruct (setTheme_animated_frame o b w Ha) as (Hh & Hr & _). auto.
  - rewrite (setTheme_direct_eq _ _ _ _ Ha).
    destruct (updateDarkMode_frame o (inl b) w) as (Hh & _ & Hr & _). auto.
Qed.

Lemma started_app (t u : list Event) : started (t ++ u) = started t + started u.
Proof. unfold started. rewrite List.filter_app, length_app. reflexivity. Qed.

Lemma appended_app (id : string) (t u : list Event) :
  appended id (t ++ u) = appended id t + appended id u.
Proof. unfold appended. rewrite List.filter_app, length_app. reflexivity. Qed.

Lemma setTheme_started {C} (isBrowser : bool) (o : Options C) (b : bool) (w : World C) :
  animated isBrowser o w = true ->
  started (trace (setTheme isBrowser o b w)) = S (started (trace w))
  /\ appended (styleId o) (trace (setTheme isBrowser o b w))
     = S (appended (styleId o) (trace w)).
Proof.
  intros Ha. rewrite (setTheme_trace isBrowser o b w Ha).
  rewrite started_app, appended_app.
  unfold started, appended, staleRemoval.
  destruct (getElementById (styleId o) (head (dom w)));
    destruct (animationType o); simpl; rewrite String.eqb_refl; simpl; split; lia.
Qed.

(** X4: with a style identifier that is not the empty string, an animated
    [setTheme] called on a head with at most one fragment under the style
    identifier leaves exactly one, and touches no element under another
    identifier; it raises the transition flag and schedules the update, but
    by itself changes neither the theme state, nor what is rendered, nor
    the root's classes, nor the storage. *)
Theorem setTheme_animated_effect {C} (o : Options C) (b : bool) (w : World C) :
  styleId o <> "" ->
  animated true o w = true ->
  alive (styleId o) (head (dom w)) <= 1 ->
  let w' := setTheme true o b w in
  alive (styleId o) (head (dom w')) = 1
  /\ (forall id, id <> styleId o -> alive id (head (dom w')) = alive id (head (dom w)))
  /\ transitioning (cells w') = true
  /\ themeState w' = themeState w
  /\ rendered w' = rendered w
  /\ classList (dom w') = classList (dom w)
  /\ localStorage (dom w') = localStorage (dom w).
Proof.
  intros Hid Ha Hone w'. subst w'.
  destruct (setTheme_animated_frame o b w Ha)
    as (_ & Hr & Hc & Hi & Ht & Hcl & Hls & _).
  rewrite (setTheme_fragment o b w Ha).
  split; [| split; [| repeat split; try assumption]].
  - rewrite alive_snoc, alive_withoutStale_self by assumption.
    unfold hasId. simpl. rewrite String.eqb_refl. reflexivity.
  - intros id Hne. rewrite alive_snoc, alive_withoutStale_other by exact Hne.
    destruct (hasId id _) eqn:He; [| lia].
    apply hasId_true in He. simpl in He. congruence.
  - unfold themeState. rewrite Hi, Hc. reflexivity.
Qed.

Lemma setTheme_animated_effect_witness :
  let o := withKind BLUR_CIRCLE in
  let w := mount true o sampleHost emptyDom tt in
  alive (styleId o) (head (dom (setTheme true o true w))) = 1
  /\ rendered (setTheme true o true w) = rendered w.
Proof.
  intros o w.
  assert (Hone : alive (styleId o) (head (dom w)) <= 1) by (vm_compute; lia).
  assert (Hid : styleId o <> "") by discriminate.
  destruct (setTheme_animated_effect o true w Hid eq_refl Hone)
    as (H1 & _ & _ & _ & Hr & _).
  split; [exact H1 | exact Hr].
Defined.

(** X5: with a style identifier that is not the empty string, the timer
    callback, run on a head with at most one fragment under the style
    identifier, leaves none, whichever call attached it; it touches no
    element under another identifier, lowers the transition flag, and
    changes neither the theme state nor what is scheduled. *)
Theorem cleanup_effect {C} (isBrowser : bool) (o : Options C) (w : World C) :
  styleId o <> "" ->
  alive (styleId o) (head (dom w)) <= 1 ->
  let w' := runTask isBrowser o TCleanup w in
  alive (styleId o) (head (dom w')) = 0
  /\ (forall id, id <> styleId o -> alive id (head (dom w')) = alive id (head (dom w)))
  /\ transitioning (cells w') = false
  /\ themeState w' = themeState w
  /\ pending w' = pending w.
Proof.
  intros Hid Hone w'. subst w'. simpl.
  pose proof (removeStyle_head (styleId o) w) as Hh.
  destruct (removeStyle_frame (styleId o) w) as (_ & Hc & _ & Hcl & Hp & _).
  unfold themeState. simpl. rewrite Hh, Hc, Hcl, Hp.
  split; [apply alive_withoutStale_self; assumption |].
  split; [intros id Hne; apply alive_withoutStale_other; exact Hne |].
  repeat split.
Qed.

Lemma cleanup_effect_witness :
  let o := withKind FADE in
  let w := setTheme true o true (mount true o sampleHost emptyDom tt) in
  alive (styleId o) (head (dom w)) = 1
  /\ alive (styleId o) (head (dom (runTask true o TCleanup w))) = 0.
Proof.
  intros o w.
  assert (H1 : alive (styleId o) (head (dom w)) = 1) by reflexivity.
  assert (Hone : alive (styleId o) (head (dom w)) <= 1) by (rewrite H1; lia).
  assert (Hid : styleId o <> "") by discriminate.
  destruct (cleanup_effect true o w Hid Hone) as (H0 & _).
  split; [exact H1 | exact H0].
Defined.

(** X6: two [toggleTheme] calls made from the same render are both accepted
    and both ask for the same theme, the negation of the rendered one: the
    guard reads the rendered flag, which the first call does not change.
    On the animated path they start two platform transitions. *)
Theorem toggle_twice_same_render {C} (isBrowser : bool) (o : Options C) (w : World C) :
  isTransitioning (rendered w) = false ->
  let target := negb (isDarkMode (rendered w)) in
  toggleTheme isBrowser o (toggleTheme isBrowser o w)
  = setTheme isBrowser o target (setTheme isBrowser o target w)
  /\ (animated isBrowser o w = true ->
      started (trace (toggleTheme isBrowser o (toggleTheme isBrowser o w)))
      = 2 + started (trace w)).
Proof.
  intros Hidle target.
  destruct (setTheme_rendered isBrowser o target w) as (Hr & Hh).
  assert (Heq : toggleTheme isBrowser o (toggleTheme isBrowser o w)
                = setTheme isBrowser o target (setTheme isBrowser o target w)).
  { unfold toggleTheme at 2. rewrite Hidle. fold target.
    unfold toggleTheme. rewrite Hr, Hidle. reflexivity. }
  split; [exact Heq |].
  intros Ha. rewrite Heq.
  assert (Ha' : animated isBrowser o (setTheme isBrowser o target w) = true).
  { unfold animated in *. rewrite Hh. exact Ha. }
  destruct (setTheme_started isBrowser o target _ Ha') as (-> & _).
  destruct (setTheme_started isBrowser o target w Ha) as (-> & _).
  reflexivity.
Qed.

Lemma toggle_twice_same_render_witness :
  let o := withKind FADE in
  let w := mount true o sampleHost emptyDom tt in
  started (trace (toggleTheme true o (toggleTheme true o w))) = 2
  /\ pending (toggleTheme true o (toggleTheme true o w))
     = [TUpdate true; TResume; TUpdate true; TResume].
Proof.
  intros o w.
  destruct (toggle_twice_same_render true o w eq_refl) as (Heq & Hs).
  split.
  - rewrite (Hs eq_refl). reflexivity.
  - rewrite Heq. reflexivity.
Defined.

(** * The applied theme follows the rendered theme *)

Lemma synced_same {C} (o : Options C) (w w' : World C) :
  rendered w' = rendered w ->
  classList (dom w') = classList (dom w) ->
  localStorage (dom w') = localStorage (dom w) ->
  synced o w -> synced o w'.
Proof. unfold synced. intros -> -> ->. auto. Qed.

Lemma applyTheme_synced {C} (o : Options C) (w : World C) :
  synced o (applyTheme true o w).
Proof.
  unfold synced, applyTheme. simpl.
  destruct (isDarkMode (rendered w)) eqn:Hd; simpl; rewrite Hd, lookup_insert_eq;
    (split; [reflexivity |]).
  - split; [reflexivity | intros _; apply elem_of_union_r, elem_of_singleton; reflexivity].
  - split; [| discriminate].
    intros Hin. apply elem_of_difference in Hin as (_ & Hout).
    exfalso. apply Hout, elem_of_singleton. reflexivity.
Qed.

Lemma render_facts {C} (isBrowser : bool) (o : Options C) (w : World C) :
  rendered (render isBrowser o w)
  = {| isDarkMode := currentDarkMode o w; isTransitioning := transitioning (cells w) |}
  /\ cells (render isBrowser o w) = cells w
  /\ caller (render isBrowser o w) = caller w
  /\ host (render isBrowser o w) = host w.
Proof.
  unfold render, applyTheme.
  destruct (Bool.eqb _ _); simpl; [repeat split |].
  destruct isBrowser; simpl; [| repeat split].
  destruct (currentDarkMode o w); repeat split.
Qed.

Lemma render_synced {C} (o : Options C) (w : World C) :
  synced o w -> synced o (render true o w).
Proof.
  intros Hw. unfold render.
  destruct (Bool.eqb _ _) eqn:He; [| apply applyTheme_synced].
  apply Bool.eqb_prop in He. unfold synced in *. simpl. rewrite <- He. exact Hw.
Qed.

Lemma updateDarkMode_synced {C} (o : Options C) v (w : World C) :
  synced o w -> synced o (updateDarkMode o v w).
Proof.
  destruct (updateDarkMode_frame o v w) as (_ & Hd & Hr & _).
  apply synced_same; [exact Hr | rewrite Hd; reflexivity ..].
Qed.

Lemma removeStyle_synced {C} (o : Options C) (id : string) (w : World C) :
  synced o w -> synced o (removeStyle id w).
Proof.
  destruct (removeStyle_frame id w) as (_ & _ & Hr & _ & _ & Hl & _).
  destruct (removeStyle_classList id w) as (Hc & _).
  apply synced_same; assumption.
Qed.

Lemma setTheme_synced {C} (o : Options C) (b : bool) (w : World C) :
  synced o w -> synced o (setTheme true o b w).
Proof.
  destruct (animated true o w) eqn:Ha.
  - destruct (setTheme_animated_frame o b w Ha) as (_ & Hr & _ & _ & _ & Hc & Hl & _).
    apply synced_same; assumption.
  - rewrite (setTheme_direct_eq _ _ _ _ Ha). apply updateDarkMode_synced.
Qed.

Lemma step_synced {C} (o : Options C) (a : Action) (w : World C) :
  synced o w -> synced o (step true o a w).
Proof.
  intros Hw. destruct a as [b | | i | | m | W H reduced r | f]; simpl.
  - apply setTheme_synced. exact Hw.
  - unfold toggleTheme. destruct (isTransitioning (rendered w)); [exact Hw |].
    apply setTheme_synced. exact Hw.
  - destruct (pending w !! i) as [[b | |] |]; simpl; [| exact Hw | | exact Hw].
    + apply render_synced, updateDarkMode_synced. exact Hw.
    + apply (synced_same o (removeStyle (styleId o) (with_pending (delete i (pending w)) w)));
        [reflexivity ..|].
      apply removeStyle_synced. exact Hw.
  - apply render_synced. exact Hw.
  - destruct (mediaListener (dom w)); [| exact Hw].
    unfold handleChange. simpl.
    destruct (truthy (localStorage (dom w) !! storageKey o)); simpl; [exact Hw |].
    apply (updateDarkMode_synced o (inl m)) in Hw.
    revert Hw. apply synced_same.
    + destruct (updateDarkMode_frame o (inl m) w) as (_ & _ & Hr & _).
      unfold updateDarkMode, setInternalDarkMode.
      destruct (onDarkModeChange o); reflexivity.
    + unfold updateDarkMode, setInternalDarkMode.
      destruct (onDarkModeChange o); reflexivity.
    + unfold updateDarkMode, setInternalDarkMode.
      destruct (onDarkModeChange o); reflexivity.
  - exact Hw.
  - exact Hw.
Qed.

Lemma run_synced {C} (o : Options C) (acts : list Action) (w : World C) :
  synced o w -> synced o (run true o acts w).
Proof.
  unfold run. revert w.
  induction acts as [| a acts IH]; intros w Hw; simpl; [exact Hw |].
  apply IH, step_synced, Hw.
Qed.

Lemma mount_synced {C} (o : Options C) (h : Host) (d : Dom) (c : C) :
  synced o (mount true o h d c).
Proof.
  unfold mount.
  match goal with
  | |- synced _ (subscribe _ _ (applyTheme _ _ ?w)) =>
      generalize (applyTheme_synced o w); generalize (applyTheme true o w)
  end.
  intros w1. apply synced_same; unfold subscribe; simpl;
    destruct (respectSystemPreference o); reflexivity.
Qed.

Lemma mount_isDarkMode {C} (isBrowser : bool) (o : Options C) (h : Host) (d : Dom) (c : C) :
  isDarkMode (rendered (mount isBrowser o h d c))
  = match externalDarkMode o c with
    | Some ext => ext
    | None => getInitialTheme isBrowser o d h
    end.
Proof.
  unfold mount, subscribe, applyTheme, injectBaseStyle.
  destruct isBrowser; simpl; [| reflexivity].
  destruct (getElementById baseStyleId (head d)); simpl;
    destruct (externalDarkMode o c) as [[|] |]; simpl;
    try (destruct (getInitialTheme true o d h)); simpl;
    destruct (respectSystemPreference o); reflexivity.
Qed.

Lemma getInitialTheme_synced {C} (o : Options C) (w : World C) (h : Host) :
  synced o w -> getInitialTheme true o (dom w) h = isDarkMode (rendered w).
Proof.
  intros (Hs & _). unfold getInitialTheme. simpl. rewrite Hs.
  destruct (isDarkMode (rendered w)).
  - rewrite decide_True by reflexivity. reflexivity.
  - rewrite decide_False by discriminate. rewrite decide_True by reflexivity.
    reflexivity.
Qed.

(** X7: in a document-capable environment, after mounting and after any
    sequence of calls, scheduled callbacks, renders, ambient-preference
    notifications and changes of the environment or of the caller's state,
    the stored value is "dark" exactly when the rendered theme is dark and
    "light" otherwise, and the root element carries the theme class
    exactly when the rendered theme is dark, whatever the document and the
    storage held before. *)
Theorem applied_theme_follows_render {C} (o : Options C) (h : Host) (d : Dom) (c : C)
    (acts : list Action) :
  let w := run true o acts (mount true o h d c) in
  localStorage (dom w) !! storageKey o
    = Some (if isDarkMode (rendered w) then "dark" else "light")
  /\ (themeClassName o ∈ classList (dom w) <-> isDarkMode (rendered w) = true).
Proof.
  intros w. apply (run_synced o acts _ (mount_synced o h d c)).
Qed.

(** X8: persisting and resolving round-trip: from the storage any run of the
    hook leaves behind, [getInitialTheme] returns the theme that was last
    rendered, whatever the ambient preference is then; so a hook mounted
    anew on that storage, without an external value, first renders that
    theme. *)
Theorem stored_theme_round_trip {C} (o : Options C) (h : Host) (d : Dom) (c : C)
    (acts : list Action) (h' : Host) (c' : C) :
  let w := run true o acts (mount true o h d c) in
  getInitialTheme true o (dom w) h' = isDarkMode (rendered w)
  /\ (externalDarkMode o c' = None ->
      isDarkMode (rendered (mount true o h' (dom w) c')) = isDarkMode (rendered w)).
Proof.
  intros w.
  pose proof (run_synced o acts _ (mount_synced o h d c)) as Hs. fold w in Hs.
  split; [apply getInitialTheme_synced; exact Hs |].
  intros Hext. rewrite mount_isDarkMode, Hext.
  apply getInitialTheme_synced. exact Hs.
Qed.

Lemma stored_theme_round_trip_witness :
  let o := withKind NONE in
  let w := run true o [ASetTheme true; ARender] (mount true o sampleHost emptyDom tt) in
  isDarkMode (rendered w) = true
  /\ isDarkMode (rendered (mount true o sampleHost (dom w) tt)) = true.
Proof.
  intros o w.
  assert (Hd : isDarkMode (rendered w) = true) by reflexivity.
  destruct (stored_theme_round_trip o sampleHost emptyDom tt
              [ASetTheme true; ARender] sampleHost tt) as (_ & Hm).
  split; [exact Hd |]. fold o in Hm. fold w in Hm. rewrite (Hm eq_refl). exact Hd.
Defined.

(** X9: the update callback applies the theme at once: run in a
    document-capable environment where the hook owns the theme, from a
    world whose applied theme agrees with the rendered one, it leaves
    [isDarkMode] rendered as the requested value, with the root's class
    and the stored value already changed to match. *)
Theorem update_callback_applies {C} (o : Options C) (b : bool) (w : World C) :
  onDarkModeChange o = None ->
  externalDarkMode o (caller w) = None ->
  synced o w ->
  let w' := runTask true o (TUpdate b) w in
  isDarkMode (rendered w') = b
  /\ isTransitioning (rendered w') = transitioning (cells w)
  /\ internalDarkMode (cells w') = b
  /\ (themeClassName o ∈ classList (dom w') <-> b = true)
  /\ localStorage (dom w') !! storageKey o = Some (if b then "dark" else "light")
  /\ head (dom w') = head (dom w).
Proof.
  intros Hcb Hext Hs w'. subst w'. simpl. unfold flushSync.
  set (w1 := updateDarkMode o (inl b) w).
  assert (H1 : cells w1 = {| internalDarkMode := b; transitioning := transitioning (cells w) |}
               /\ caller w1 = caller w /\ head (dom w1) = head (dom w)).
  { subst w1. unfold updateDarkMode. rewrite Hcb. repeat split. }
  destruct H1 as (Hc & Hcl & Hh).
  destruct (render_facts true o w1) as (Hr & Hc' & _).
  assert (Hcur : currentDarkMode o w1 = b).
  { unfold currentDarkMode. rewrite Hcl, Hext, Hc. reflexivity. }
  pose proof (render_synced o w1 (updateDarkMode_synced o (inl b) w Hs)) as (Hst & Hclass).
  destruct (render_head true o w1) as (Hh' & _).
  rewrite Hr in Hst, Hclass. simpl in Hst, Hclass. rewrite Hcur in Hst, Hclass.
  rewrite Hr, Hc', Hc, Hh', Hh. simpl. rewrite Hcur. repeat split; try assumption.
  - apply Hclass.
  - apply Hclass.
Qed.

Lemma update_callback_applies_witness :
  let o := withKind FADE in
  let w := setTheme true o true (mount true o sampleHost emptyDom tt) in
  isDarkMode (rendered w) = false
  /\ isDarkMode (rendered (runTask true o (TUpdate true) w)) = true
  /\ localStorage (dom (runTask true o (TUpdate true) w)) !! storageKey o = Some "dark".
Proof.
  intros o w.
  assert (Hs : synced o w).
  { split; [reflexivity |]. split; [intros Hin | discriminate].
    vm_compute in Hin. set_solver. }
  destruct (update_callback_applies o true w eq_refl eq_refl Hs)
    as (Hd & _ & _ & _ & Hl & _).
  split; [reflexivity |]. split; [exact Hd | exact Hl].
Defined.

(** * Outside a document-capable environment *)

Lemma updateDarkMode_serverInv {C} (o : Options C) v (d : Dom) (w : World C) :
  serverInv d w -> serverInv d (updateDarkMode o v w).
Proof.
  intros (Hd & Hp & Hs & Ht).
  destruct (updateDarkMode_frame o v w) as (_ & Hd' & _ & Hp' & Hs' & _).
  repeat split; try congruence.
  unfold updateDarkMode, setInternalDarkMode.
  destruct (onDarkModeChange o); simpl; rewrite forallb_app, Ht; reflexivity.
Qed.

Lemma step_serverInv {C} (o : Options C) (d : Dom) (a : Action) (w : World C) :
  serverInv d w -> serverInv d (step false o a w).
Proof.
  intros Hw. destruct a as [b | | i | | m | W H reduced r | f]; simpl.
  - apply updateDarkMode_serverInv. exact Hw.
  - unfold toggleTheme. destruct (isTransitioning (rendered w)); [exact Hw |].
    apply updateDarkMode_serverInv. exact Hw.
  - destruct Hw as (Hd & Hp & Hs & Ht). rewrite Hp. simpl. repeat split; assumption.
  - unfold render, applyTheme. simpl. destruct (Bool.eqb _ _); exact Hw.
  - destruct (mediaListener (dom w)); [| exact Hw].
    unfold handleChange. simpl.
    destruct (truthy (localStorage (dom w) !! storageKey o)); simpl; [exact Hw |].
    apply (updateDarkMode_serverInv o (inl m) d
             (with_host {| innerWidth := innerWidth (host w);
                           innerHeight := innerHeight (host w);
                           prefersDark := m;
                           prefersReducedMotion := prefersReducedMotion (host w);
                           startViewTransition := startViewTransition (host w);
                           refCurrent := refCurrent (host w) |} w)).
    exact Hw.
  - exact Hw.
  - exact Hw.
Qed.

(** X10: outside a document-capable environment the hook's own state
    starts light, and what it first reports is the external value when the
    caller supplies one and light otherwise; whatever is called on it, in
    whatever order, it never writes the document or the storage, never
    attaches a fragment, never schedules a callback and never starts a
    platform transition: the only thing it ever does is the theme update
    itself. *)
Theorem server_side_inert {C} (o : Options C) (h : Host) (d : Dom) (c : C)
    (acts : list Action) :
  internalDarkMode (cells (mount false o h d c)) = false
  /\ isDarkMode (rendered (mount false o h d c))
     = match externalDarkMode o c with
       | Some ext => ext
       | None => false
       end
  /\ let w := run false o acts (mount false o h d c) in
     dom w = d
     /\ pending w = []
     /\ snapshots w = [head d]
     /\ forallb isUpdate (trace w) = true
     /\ started (trace w) = 0.
Proof.
  split; [reflexivity |]. split; [reflexivity |]. intros w.
  assert (Hw : serverInv d w).
  { subst w. unfold run.
    assert (H0 : serverInv d (mount false o h d c)) by (repeat split).
    revert H0. generalize (mount false o h d c).
    induction acts as [| a acts IH]; intros w0 H0; simpl; [exact H0 |].
    apply IH, step_serverInv, H0. }
  destruct Hw as (Hd & Hp & Hs & Ht).
  repeat split; try assumption.
  unfold started. clear -Ht.
  induction (trace w) as [| e t IH]; simpl in *; [reflexivity |].
  apply andb_prop in Ht as (He & Ht).
  destruct e; simpl in *; try discriminate; auto.
Qed.

(** * The base reset style *)

Lemma alive_present (id : string) (h : list StyleElement) (e : StyleElement) :
  getElementById id h = Some e -> 1 <= alive id h.
Proof.
  unfold getElementById, alive. destruct (String.eqb id ""); [discriminate |].
  induction h as [| a t IH]; simpl; [discriminate |].
  destruct (hasId id a); simpl; [lia | exact IH].
Qed.

(** No operation of the hook changes how many elements carry the base
    style's identifier, as long as the style identifier is another one. *)
Lemma step_base {C} (o : Options C) (a : Action) (w : World C) :
  styleId o <> baseStyleId ->
  alive baseStyleId (head (dom (step true o a w))) = alive baseStyleId (head (dom w)).
Proof.
  intros Hne.
  assert (Hbase : baseStyleId <> styleId o) by congruence.
  assert (Hset : forall b w0, alive baseStyleId (head (dom (setTheme true o b w0)))
                              = alive baseStyleId (head (dom w0))).
  { intros b w0. destruct (animated true o w0) eqn:Ha.
    - rewrite (setTheme_fragment o b w0 Ha), alive_snoc.
      rewrite alive_withoutStale_other by exact Hbase.
      destruct (hasId baseStyleId _) eqn:He; [| lia].
      apply hasId_true in He. simpl in He. congruence.
    - rewrite (setTheme_direct_eq _ _ _ _ Ha).
      destruct (updateDarkMode_frame o (inl b) w0) as (_ & -> & _). reflexivity. }
  destruct a as [b | | i | | m | W H reduced r | f]; simpl.
  - apply Hset.
  - unfold toggleTheme. destruct (isTransitioning (rendered w)); [reflexivity |].
    apply Hset.
  - destruct (pending w !! i) as [[b | |] |]; simpl; try reflexivity.
    + unfold flushSync.
      destruct (render_head true o
                  (updateDarkMode o (inl b) (with_pending (delete i (pending w)) w)))
        as (-> & _).
      destruct (updateDarkMode_frame o (inl b) (with_pending (delete i (pending w)) w))
        as (_ & -> & _).
      reflexivity.
    + rewrite (removeStyle_head (styleId o) (with_pending (delete i (pending w)) w)).
      simpl. apply alive_withoutStale_other. exact Hbase.
  - destruct (render_head true o w) as (-> & _). reflexivity.
  - destruct (mediaListener (dom w)); [| reflexivity].
    unfold handleChange. simpl.
    destruct (truthy (localStorage (dom w) !! storageKey o)); simpl; [reflexivity |].
    unfold updateDarkMode, setInternalDarkMode.
    destruct (onDarkModeChange o); reflexivity.
  - reflexivity.
  - reflexivity.
Qed.

Lemma mount_base {C} (o : Options C) (h : Host) (d : Dom) (c : C) :
  alive baseStyleId (head d) <= 1 ->
  alive baseStyleId (head (dom (mount true o h d c))) = 1.
Proof.
  intros Hd. unfold mount.
  match goal with
  | |- context [injectBaseStyle true ?w] => set (w0 := w)
  end.
  assert (H1 : alive baseStyleId (head (dom (injectBaseStyle true w0))) = 1).
  { unfold injectBaseStyle.
    destruct (getElementById baseStyleId (head (dom w0))) eqn:Hg.
    - pose proof (alive_present _ _ _ Hg) as Hge.
      change (head (dom w0)) with (head d) in *. lia.
    - unfold appendChild. simpl. rewrite alive_snoc.
      rewrite (alive_absent baseStyleId (head d)); [reflexivity | discriminate | exact Hg]. }
  revert H1. generalize (injectBaseStyle true w0). intros w1 H1.
  unfold subscribe, applyTheme. simpl.
  destruct (isDarkMode (rendered w1)), (respectSystemPreference o); exact H1.
Qed.

(** X11: when the style identifier is not the identifier of the base reset
    style, the base reset style is attached once at mount (unless the
    document already has it) and no call, callback or cleanup ever removes
    or duplicates it: in a document that starts with at most one element
    per identifier, exactly one element carries it ever after. *)
Theorem base_style_kept {C} (o : Options C) (h : Host) (d : Dom) (c : C)
    (acts : list Action) :
  styleId o <> baseStyleId ->
  atMostOne (head d) ->
  alive baseStyleId (head (dom (run true o acts (mount true o h d c)))) = 1.
Proof.
  intros Hne Hd. unfold run.
  generalize (mount_base o h d c (Hd baseStyleId)). generalize (mount true o h d c).
  induction acts as [| a acts IH]; intros w0 H0; simpl; [exact H0 |].
  apply IH. rewrite step_base by exact Hne. exact H0.
Qed.

Lemma base_style_kept_witness :
  let o := withKind CIRCLE in
  alive baseStyleId
    (head (dom (run true o [ASetTheme true; ASetTheme false; ARunTask 1; ARunTask 2]
                  (mount true o sampleHost emptyDom tt)))) = 1.
Proof.
  intros o.
  apply (base_style_kept o sampleHost emptyDom tt).
  - discriminate.
  - intros id. unfold alive. simpl. lia.
Defined.

(** * Transitions and fragments *)

Lemma updateDarkMode_counts {C} (o : Options C) (id : string) v (w : World C) :
  started (trace (updateDarkMode o v w)) = started (trace w)
  /\ appended id (trace (updateDarkMode o v w)) = appended id (trace w).
Proof.
  unfold updateDarkMode, setInternalDarkMode.
  destruct (onDarkModeChange o); simpl; rewrite started_app, appended_app;
    unfold started, appended; simpl; split; lia.
Qed.

Lemma setTheme_counts {C} (isBrowser : bool) (o : Options C) (b : bool) (w : World C) :
  appended (styleId o) (trace w) = started (trace w) ->
  appended (styleId o) (trace (setTheme isBrowser o b w))
  = started (trace (setTheme isBrowser o b w)).
Proof.
  intros Hw. destruct (animated isBrowser o w) eqn:Ha.
  - destruct (setTheme_started isBrowser o b w Ha) as (-> & ->). congruence.
  - rewrite (setTheme_direct_eq _ _ _ _ Ha).
    destruct (updateDarkMode_counts o (styleId o) (inl b) w) as (-> & ->). exact Hw.
Qed.

Lemma step_counts {C} (isBrowser : bool) (o : Options C) (a : Action) (w : World C) :
  appended (styleId o) (trace w) = started (trace w) ->
  appended (styleId o) (trace (step isBrowser o a w))
  = started (trace (step isBrowser o a w)).
Proof.
  intros Hw. destruct a as [b | | i | | m | W H reduced r | f]; simpl.
  - apply setTheme_counts, Hw.
  - unfold toggleTheme. destruct (isTransitioning (rendered w)); [exact Hw |].
    apply setTheme_counts, Hw.
  - destruct (pending w !! i) as [[b | |] |]; simpl; [| | | exact Hw].
    + unfold flushSync.
      destruct (render_head isBrowser o
                  (updateDarkMode o (inl b) (with_pending (delete i (pending w)) w)))
        as (_ & _ & _ & -> & _).
      destruct (updateDarkMode_counts o (styleId o) (inl b)
                  (with_pending (delete i (pending w)) w)) as (-> & ->).
      exact Hw.
    + rewrite started_app, appended_app. unfold started, appended in *. simpl. lia.
    + rewrite (removeStyle_trace (styleId o) (with_pending (delete i (pending w)) w)).
      rewrite !started_app, !appended_app. unfold staleRemoval. simpl.
      unfold started, appended in *.
      destruct (getElementById (styleId o) (head (dom w))); simpl; lia.
  - destruct (render_head isBrowser o w) as (_ & _ & _ & -> & _). exact Hw.
  - destruct (mediaListener (dom w)); [| exact Hw].
    unfold handleChange. simpl.
    destruct (truthy (localStorage (dom w) !! storageKey o)); simpl; [exact Hw |].
    unfold updateDarkMode, setInternalDarkMode.
    destruct (onDarkModeChange o); simpl; rewrite started_app, appended_app;
      unfold started, appended in *; simpl; lia.
  - exact Hw.
  - exact Hw.
Qed.

(** X12: fragments and platform transitions go in pairs: when the style
    identifier is not the identifier of the base reset style, in every
    world the hook can reach the number of fragments attached under the
    style identifier so far equals the number of platform transitions
    started so far. *)
Theorem one_fragment_per_transition {C} (isBrowser : bool) (o : Options C)
    (h : Host) (d : Dom) (c : C) (acts : list Action) :
  styleId o <> baseStyleId ->
  let w := run isBrowser o acts (mount isBrowser o h d c) in
  appended (styleId o) (trace w) = started (trace w).
Proof.
  intros Hne w. subst w. unfold run.
  assert (H0 : appended (styleId o) (trace (mount isBrowser o h d c))
               = started (trace (mount isBrowser o h d c))).
  { assert (Hb : String.eqb baseStyleId (styleId o) = false)
      by (apply String.eqb_neq; congruence).
    assert (Ht : trace (mount isBrowser o h d c) = []
                 \/ trace (mount isBrowser o h d c) = [EvStyleAppended baseStyleId]).
    { unfold mount, subscribe, applyTheme, injectBaseStyle.
      destruct isBrowser; simpl; [| auto].
      destruct (getElementById baseStyleId (head d)); simpl;
        destruct (match externalDarkMode o c with Some ext => ext | None => _ end);
        destruct (respectSystemPreference o); simpl; auto. }
    destruct Ht as [-> | ->]; [reflexivity |].
    unfold appended, started. cbn -[String.eqb]. rewrite Hb. reflexivity. }
  revert H0. generalize (mount isBrowser o h d c).
  induction acts as [| a acts IH]; intros w0 H0; simpl; [exact H0 |].
  apply IH, step_counts, H0.
Qed.

Lemma one_fragment_per_transition_witness :
  let o := withKind CIRCLE in
  let w := run true o [AToggleTheme; ASetTheme false; ARunTask 0]
             (mount true o sampleHost emptyDom tt) in
  started (trace w) = 2 /\ appended (styleId o) (trace w) = 2.
Proof.
  intros o w.
  assert (Hs : started (trace w) = 2) by reflexivity.
  split; [exact Hs |]. rewrite <- Hs.
  apply (one_fragment_per_transition true o sampleHost emptyDom tt). discriminate.
Defined.

(** * Toggling *)

Lemma toggle_direct_facts {C} (isBrowser : bool) (o : Options C) (w : World C) :
  animated isBrowser o w = false ->
  onDarkModeChange o = None ->
  externalDarkMode o (caller w) = None ->
  isTransitioning (rendered w) = false ->
  transitioning (cells w) = false ->
  let w' := render isBrowser o (toggleTheme isBrowser o w) in
  rendered w' = {| isDarkMode := negb (isDarkMode (rendered w)); isTransitioning := false |}
  /\ host w' = host w
  /\ caller w' = caller w
  /\ transitioning (cells w') = false
  /\ pending w' = pending w
  /\ head (dom w') = head (dom w).
Proof.
  intros Ha Hcb Hext Hidle Hcell w'. subst w'.
  unfold toggleTheme. rewrite Hidle, (setTheme_direct_eq _ _ _ _ Ha).
  set (w1 := updateDarkMode o (inl (negb (isDarkMode (rendered w)))) w).
  assert (H1 : cells w1 = {| internalDarkMode := negb (isDarkMode (rendered w));
                             transitioning := transitioning (cells w) |}
               /\ caller w1 = caller w /\ host w1 = host w
               /\ pending w1 = pending w /\ head (dom w1) = head (dom w)).
  { subst w1. unfold updateDarkMode. rewrite Hcb. repeat split. }
  destruct H1 as (Hc & Hcl & Hh & Hp & Hd).
  destruct (render_facts isBrowser o w1) as (Hr & Hc' & Hcl' & Hh').
  destruct (render_head isBrowser o w1) as (Hd' & _ & Hp' & _).
  rewrite Hr, Hh', Hcl', Hc', Hp', Hd', Hc, Hcl, Hh, Hp, Hd. simpl.
  unfold currentDarkMode. rewrite Hcl, Hext, Hc, Hcell. repeat split.
Qed.

(** X13: on the direct path, where the hook owns the theme and no transition is
    in flight, a toggle followed by a render flips the rendered theme, and
    two such toggles bring it back, with nothing scheduled and the head
    untouched. *)
Theorem toggle_flips_on_direct_path {C} (isBrowser : bool) (o : Options C) (w : World C) :
  animated isBrowser o w = false ->
  onDarkModeChange o = None ->
  externalDarkMode o (caller w) = None ->
  isTransitioning (rendered w) = false ->
  transitioning (cells w) = false ->
  let t := fun w0 => render isBrowser o (toggleTheme isBrowser o w0) in
  isDarkMode (rendered (t w)) = negb (isDarkMode (rendered w))
  /\ isDarkMode (rendered (t (t w))) = isDarkMode (rendered w)
  /\ pending (t (t w)) = pending w
  /\ head (dom (t (t w))) = head (dom w).
Proof.
  intros Ha Hcb Hext Hidle Hcell t.
  destruct (toggle_direct_facts isBrowser o w Ha Hcb Hext Hidle Hcell)
    as (Hr & Hh & Hcl & Hc & Hp & Hd).
  fold (t w) in Hr, Hh, Hcl, Hc, Hp, Hd.
  assert (Ha' : animated isBrowser o (t w) = false).
  { unfold animated in *. rewrite Hh. exact Ha. }
  assert (Hidle' : isTransitioning (rendered (t w)) = false) by (rewrite Hr; reflexivity).
  assert (Hext' : externalDarkMode o (caller (t w)) = None) by (rewrite Hcl; exact Hext).
  destruct (toggle_direct_facts isBrowser o (t w) Ha' Hcb Hext' Hidle' Hc)
    as (Hr2 & _ & _ & _ & Hp2 & Hd2).
  fold (t (t w)) in Hr2, Hp2, Hd2.
  rewrite Hr2, Hp2, Hd2, Hr, Hp, Hd. simpl.
  rewrite Bool.negb_involutive. repeat split.
Qed.

Lemma toggle_flips_on_direct_path_witness :
  let o := withKind NONE in
  let w := mount true o sampleHost emptyDom tt in
  isDarkMode (rendered w) = false
  /\ isDarkMode (rendered (render true o (toggleTheme true o w))) = true.
Proof.
  intros o w.
  destruct (toggle_flips_on_direct_path true o w eq_refl eq_refl eq_refl eq_refl eq_refl)
    as (Hflip & _).
  split; [reflexivity |]. rewrite Hflip. reflexivity.
Defined.

(** * One transition from start to end *)

Lemma step_runTask_first {C} (isBrowser : bool) (o : Options C) (w : World C)
    (t : Task) (rest : list Task) :
  pending w = t :: rest ->
  step isBrowser o (ARunTask 0) w = runTask isBrowser o t (with_pending rest w).
Proof. intros Hp. simpl. rewrite Hp. reflexivity. Qed.

Lemma runUpdate_facts {C} (isBrowser : bool) (o : Options C) (b : bool) (w : World C) :
  onDarkModeChange o = None ->
  externalDarkMode o (caller w) = None ->
  let w' := runTask isBrowser o (TUpdate b) w in
  rendered w' = {| isDarkMode := b; isTransitioning := transitioning (cells w) |}
  /\ cells w' = {| internalDarkMode := b; transitioning := transitioning (cells w) |}
  /\ caller w' = caller w
  /\ head (dom w') = head (dom w)
  /\ pending w' = pending w.
Proof.
  intros Hcb Hext w'. subst w'. simpl. unfold flushSync.
  set (w1 := updateDarkMode o (inl b) w).
  assert (H1 : cells w1 = {| internalDarkMode := b; transitioning := transitioning (cells w) |}
               /\ caller w1 = caller w /\ head (dom w1) = head (dom w)
               /\ pending w1 = pending w).
  { subst w1. unfold updateDarkMode. rewrite Hcb. repeat split. }
  destruct H1 as (Hc & Hcl & Hh & Hp).
  destruct (render_facts isBrowser o w1) as (Hr & Hc' & Hcl' & _).
  destruct (render_head isBrowser o w1) as (Hh' & _ & Hp' & _).
  rewrite Hr, Hc', Hcl', Hh', Hp', Hc, Hcl, Hh, Hp.
  unfold currentDarkMode. rewrite Hcl, Hext, Hc. repeat split.
Qed.

Lemma step_runTask_second {C} (isBrowser : bool) (o : Options C) (w : World C)
    (t0 t : Task) (rest : list Task) :
  pending w = t0 :: t :: rest ->
  step isBrowser o (ARunTask 1) w = runTask isBrowser o t (with_pending (t0 :: rest) w).
Proof. intros Hp. simpl. rewrite Hp. reflexivity. Qed.

(** X14: one accepted transition, in the order the code produces (the
    [await] of [setTheme] waits on no promise, so the rest of the call runs
    before the platform calls the update callback), from an idle world
    where the hook owns the theme and the style identifier is not the empty
    string: right after the call exactly one fragment is attached and the
    update and the continuation are scheduled; the continuation sets the
    timer while the update is still waiting; once the platform has called
    the update callback the requested theme is rendered with
    [isTransitioning] true and the fragment still attached; when the timer
    fires the fragment is gone and nothing is scheduled; and the next
    render reports the requested theme with [isTransitioning] false. *)
Theorem transition_lifecycle {C} (o : Options C) (b : bool) (w : World C) :
  styleId o <> "" ->
  animated true o w = true ->
  pending w = [] ->
  alive (styleId o) (head (dom w)) <= 1 ->
  onDarkModeChange o = None ->
  externalDarkMode o (caller w) = None ->
  let w1 := step true o (ASetTheme b) w in
  let w2 := step true o (ARunTask 1) w1 in
  let w3 := step true o (ARunTask 0) w2 in
  let w4 := step true o (ARunTask 0) w3 in
  let w5 := step true o ARender w4 in
  (alive (styleId o) (head (dom w1)) = 1 /\ pending w1 = [TUpdate b; TResume])
  /\ (pending w2 = [TUpdate b; TCleanup]
      /\ alive (styleId o) (head (dom w2)) = 1)
  /\ (isDarkMode (rendered w3) = b
      /\ isTransitioning (rendered w3) = true
      /\ alive (styleId o) (head (dom w3)) = 1
      /\ pending w3 = [TCleanup])
  /\ (alive (styleId o) (head (dom w4)) = 0 /\ pending w4 = [])
  /\ (isDarkMode (rendered w5) = b /\ isTransitioning (rendered w5) = false).
Proof.
  intros Hid Ha Hp Hone Hcb Hext w1 w2 w3 w4 w5.
  (* the call *)
  assert (F1 : pending w1 = [TUpdate b; TResume]
               /\ caller w1 = caller w
               /\ transitioning (cells w1) = true
               /\ alive (styleId o) (head (dom w1)) = 1).
  { subst w1. simpl.
    destruct (setTheme_animated_frame o b w Ha) as (_ & _ & Hc & _ & Ht & _).
    rewrite (setTheme_pending true o b w Ha), Hp, (setTheme_fragment o b w Ha).
    rewrite alive_snoc, alive_withoutStale_self by assumption.
    unfold hasId. simpl. rewrite String.eqb_refl. repeat split; assumption. }
  destruct F1 as (Hp1 & Hc1 & Ht1 & Ha1).
  (* the rest of the call *)
  assert (E2 : w2 = runTask true o TResume (with_pending [TUpdate b] w1))
    by (apply step_runTask_second; exact Hp1).
  assert (F2 : pending w2 = [TUpdate b; TCleanup] /\ cells w2 = cells w1
               /\ caller w2 = caller w1 /\ head (dom w2) = head (dom w1))
    by (rewrite E2; repeat split).
  destruct F2 as (Hp2 & Hcells2 & Hc2 & Hh2).
  (* the update callback *)
  assert (E3 : w3 = runTask true o (TUpdate b) (with_pending [TCleanup] w2))
    by (apply step_runTask_first; exact Hp2).
  assert (Hext2 : externalDarkMode o (caller (with_pending [TCleanup] w2)) = None)
    by (simpl; rewrite Hc2, Hc1; exact Hext).
  destruct (runUpdate_facts true o b (with_pending [TCleanup] w2) Hcb Hext2)
    as (Hr3 & Hcells3 & Hc3 & Hh3 & Hp3).
  rewrite <- E3 in Hr3, Hcells3, Hc3, Hh3, Hp3. simpl in Hr3, Hcells3, Hc3, Hh3, Hp3.
  rewrite Hcells2, Ht1 in Hr3, Hcells3.
  (* the timer *)
  assert (E4 : w4 = runTask true o TCleanup (with_pending [] w3))
    by (apply step_runTask_first; exact Hp3).
  assert (F4 : pending w4 = [] /\ caller w4 = caller w3
               /\ cells w4 = {| internalDarkMode := internalDarkMode (cells w3);
                                transitioning := false |}
               /\ head (dom w4) = withoutStale (styleId o) (head (dom w3))).
  { rewrite E4. simpl.
    destruct (removeStyle_frame (styleId o) (with_pending [] w3))
      as (_ & Hc & _ & Hcl & Hpp & _).
    rewrite (removeStyle_head (styleId o) (with_pending [] w3)), Hc, Hcl, Hpp.
    repeat split. }
  destruct F4 as (Hp4 & Hc4 & Hcells4 & Hh4).
  (* the render *)
  destruct (render_facts true o w4) as (Hr5 & _).
  change (render true o w4) with w5 in Hr5.
  assert (Hcur : currentDarkMode o w4 = b).
  { unfold currentDarkMode.
    rewrite Hc4, Hc3, Hc2, Hc1, Hext, Hcells4, Hcells3. reflexivity. }
  split; [split; assumption |].
  split; [split; [exact Hp2 | rewrite Hh2; exact Ha1] |].
  split; [rewrite Hr3, Hh3, Hh2, Ha1; repeat split; exact Hp3 |].
  split.
  - split; [| exact Hp4].
    rewrite Hh4, Hh3, Hh2. apply alive_withoutStale_self; [exact Hid |].
    rewrite Ha1. lia.
  - rewrite Hr5, Hcur, Hcells4. split; reflexivity.
Qed.

Lemma transition_lifecycle_witness :
  let o := withKind FADE in
  let w := mount true o sampleHost emptyDom tt in
  let w' := run true o
              [ASetTheme true; ARunTask 1; ARunTask 0; ARunTask 0; ARender] w in
  isDarkMode (rendered w') = true /\ isTransitioning (rendered w') = false.
Proof.
  intros o w w'.
  assert (Hone : alive (styleId o) (head (dom w)) <= 1) by (vm_compute; lia).
  assert (Hid : styleId o <> "") by discriminate.
  destruct (transition_lifecycle o true w Hid eq_refl eq_refl Hone eq_refl eq_refl)
    as (_ & _ & _ & _ & Hend).
  exact Hend.
Defined.

(** * Nothing is left behind *)

Lemma existsb_delete_update (p : list Task) (i : nat) (b : bool) :
  p !! i = Some (TUpdate b) ->
  existsb clears (delete i p) = existsb clears p.
Proof.
  revert i. induction p as [| t p IH]; intros i Hi; [discriminate |].
  destruct i as [| i]; simpl in *.
  - injection Hi as ->. reflexivity.
  - rewrite (IH i Hi). reflexivity.
Qed.

Lemma updateDarkMode_settled {C} (o : Options C) v (w : World C) :
  settled o w -> settled o (updateDarkMode o v w).
Proof.
  unfold settled.
  destruct (updateDarkMode_frame o v w) as (_ & -> & _ & -> & _ & ->). auto.
Qed.

Lemma setTheme_settled {C} (isBrowser : bool) (o : Options C) (b : bool) (w : World C) :
  settled o w -> settled o (setTheme isBrowser o b w).
Proof.
  intros Hw. destruct (animated isBrowser o w) eqn:Ha.
  - unfold settled. rewrite (setTheme_pending isBrowser o b w Ha), existsb_app.
    simpl. rewrite orb_true_r. discriminate.
  - rewrite (setTheme_direct_eq _ _ _ _ Ha). apply updateDarkMode_settled, Hw.
Qed.

Lemma step_settled {C} (isBrowser : bool) (o : Options C) (a : Action) (w : World C) :
  styleId o <> "" ->
  worldInv (styleId o) w -> settled o w -> settled o (step isBrowser o a w).
Proof.
  intros Hid Hinv Hw. destruct a as [b | | i | | m | W H reduced r | f]; simpl.
  - apply setTheme_settled, Hw.
  - unfold toggleTheme. destruct (isTransitioning (rendered w)); [exact Hw |].
    apply setTheme_settled, Hw.
  - destruct (pending w !! i) as [[b | |] |] eqn:Hi; simpl; [| | | exact Hw].
    + unfold settled, flushSync.
      destruct (render_head isBrowser o
                  (updateDarkMode o (inl b) (with_pending (delete i (pending w)) w)))
        as (-> & _ & -> & _).
      destruct (render_facts isBrowser o
                  (updateDarkMode o (inl b) (with_pending (delete i (pending w)) w)))
        as (_ & -> & _).
      destruct (updateDarkMode_frame o (inl b) (with_pending (delete i (pending w)) w))
        as (_ & -> & _ & -> & _ & ->).
      simpl. rewrite (existsb_delete_update _ _ _ Hi). exact Hw.
    + unfold settled. simpl. rewrite existsb_app. simpl. rewrite orb_true_r. discriminate.
    + unfold settled. simpl. intros _. split; [reflexivity |].
      rewrite (removeStyle_head (styleId o) (with_pending (delete i (pending w)) w)).
      simpl. apply alive_withoutStale_self; [exact Hid |].
      destruct Hinv as (Hone & _). exact Hone.
  - unfold settled.
    destruct (render_head isBrowser o w) as (-> & _ & -> & _).
    destruct (render_facts isBrowser o w) as (_ & -> & _). exact Hw.
  - destruct (mediaListener (dom w)); [| exact Hw].
    unfold handleChange. simpl.
    destruct (truthy (localStorage (dom w) !! storageKey o)); simpl; [exact Hw |].
    unfold settled, updateDarkMode, setInternalDarkMode.
    destruct (onDarkModeChange o); exact Hw.
  - exact Hw.
  - exact Hw.
Qed.

Lemma mount_settled {C} (isBrowser : bool) (o : Options C) (h : Host) (d : Dom) (c : C) :
  styleId o <> baseStyleId ->
  alive (styleId o) (head d) = 0 ->
  settled o (mount isBrowser o h d c).
Proof.
  intros Hne Hd.
  assert (Hb : hasId (styleId o) {| el_id := baseStyleId; textContent := baseSheet |} = false).
  { unfold hasId. cbn -[String.eqb]. apply String.eqb_neq. congruence. }
  unfold settled, mount, subscribe, applyTheme, injectBaseStyle. intros _.
  destruct isBrowser; simpl; [| auto].
  destruct (getElementById baseStyleId (head d)); simpl;
    destruct (match externalDarkMode o c with Some ext => ext | None => _ end);
    destruct (respectSystemPreference o); simpl;
    rewrite ?alive_snoc, ?Hb, ?Hd; auto.
Qed.

(** X15: nothing is left behind: when the style identifier is neither the
    empty string nor the base style's identifier and the document starts
    without a fragment under it, then in every world the hook can reach,
    if neither the rest of a [setTheme] call nor a cleanup timer is still
    scheduled, the transition flag is down and no fragment is attached
    under the style identifier. *)
Theorem nothing_left_behind {C} (isBrowser : bool) (o : Options C)
    (h : Host) (d : Dom) (c : C) (acts : list Action) :
  styleId o <> "" ->
  styleId o <> baseStyleId ->
  alive (styleId o) (head d) = 0 ->
  let w := run isBrowser o acts (mount isBrowser o h d c) in
  existsb clears (pending w) = false ->
  transitioning (cells w) = false /\ alive (styleId o) (head (dom w)) = 0.
Proof.
  intros Hid Hne Hd w. subst w. unfold run.
  assert (Hone : alive (styleId o) (head d) <= 1) by lia.
  pose proof (mount_inv isBrowser o h d c (styleId o) Hone) as Hinv.
  pose proof (mount_settled isBrowser o h d c Hne Hd) as Hs.
  revert Hinv Hs. generalize (mount isBrowser o h d c).
  induction acts as [| a acts IH]; intros w0 Hinv Hs; simpl; [exact Hs |].
  apply IH; [apply step_inv; assumption | apply step_settled; assumption].
Qed.

Lemma nothing_left_behind_witness :
  let o := withKind CIRCLE in
  let w := run true o [ASetTheme true; ARunTask 1; ARunTask 0; ARunTask 0]
             (mount true o sampleHost emptyDom tt) in
  pending w = []
  /\ transitioning (cells w) = false
  /\ alive (styleId o) (head (dom w)) = 0.
Proof.
  intros o w.
  assert (Hp : pending w = []) by reflexivity.
  split; [exact Hp |].
  apply (nothing_left_behind true o sampleHost emptyDom tt
           [ASetTheme true; ARunTask 1; ARunTask 0; ARunTask 0]).
  - discriminate.
  - discriminate.
  - reflexivity.
  - fold o. fold w. rewrite Hp. reflexivity.
Defined.

(** * A caller that owns the theme *)

Lemma step_internal_frozen {C} (isBrowser : bool) (o : Options C) (a : Action)
    (w : World C) (cb : bool -> C -> C) :
  onDarkModeChange o = Some cb ->
  internalDarkMode (cells (step isBrowser o a w)) = internalDarkMode (cells w).
Proof.
  intros Hcb.
  assert (Hupd : forall v w0, internalDarkMode (cells (updateDarkMode o v w0))
                              = internalDarkMode (cells w0)).
  { intros v w0. unfold updateDarkMode. rewrite Hcb. reflexivity. }
  assert (Hset : forall b w0, internalDarkMode (cells (setTheme isBrowser o b w0))
                              = internalDarkMode (cells w0)).
  { intros b w0.
    destruct (setTheme_themeState isBrowser o b w0) as [H | H];
      unfold themeState in H; injection H as Hi _; rewrite Hi; [reflexivity | apply Hupd]. }
  destruct a as [b | | i | | m | W H reduced r | f]; simpl.
  - apply Hset.
  - unfold toggleTheme. destruct (isTransitioning (rendered w)); [reflexivity | apply Hset].
  - destruct (pending w !! i) as [[b | |] |]; simpl; try reflexivity.
    + unfold flushSync.
      destruct (render_facts isBrowser o
                  (updateDarkMode o (inl b) (with_pending (delete i (pending w)) w)))
        as (_ & -> & _).
      rewrite Hupd. reflexivity.
    + destruct (removeStyle_frame (styleId o) (with_pending (delete i (pending w)) w))
        as (_ & -> & _).
      reflexivity.
  - destruct (render_facts isBrowser o w) as (_ & -> & _). reflexivity.
  - destruct (mediaListener (dom w)); [| reflexivity].
    unfold handleChange. simpl.
    destruct (truthy (localStorage (dom w) !! storageKey o)); simpl; [reflexivity |].
    rewrite Hupd. reflexivity.
  - reflexivity.
  - reflexivity.
Qed.

(** X16: when a change callback is supplied, the hook never writes its internal
    state cell: after any sequence of calls, callbacks, renders and
    notifications the cell still holds what [getInitialTheme] returned at
    mount. *)
Theorem callback_freezes_internal_state {C} (isBrowser : bool) (o : Options C)
    (h : Host) (d : Dom) (c : C) (acts : list Action) (cb : bool -> C -> C) :
  onDarkModeChange o = Some cb ->
  let w := run isBrowser o acts (mount isBrowser o h d c) in
  internalDarkMode (cells w) = getInitialTheme isBrowser o d h.
Proof.
  intros Hcb w. subst w. unfold run.
  assert (H0 : internalDarkMode (cells (mount isBrowser o h d c))
               = getInitialTheme isBrowser o d h).
  { unfold mount, subscribe, applyTheme, injectBaseStyle.
    destruct isBrowser; simpl; [| reflexivity].
    destruct (getElementById baseStyleId (head d)); simpl;
      destruct (match externalDarkMode o c with Some ext => ext | None => _ end);
      destruct (respectSystemPreference o); reflexivity. }
  revert H0. generalize (mount isBrowser o h d c).
  induction acts as [| a acts IH]; intros w0 H0; simpl; [exact H0 |].
  apply IH. rewrite (step_internal_frozen isBrowser o a w0 cb Hcb). exact H0.
Qed.

Lemma callback_freezes_internal_state_witness :
  let o := controlled NONE in
  let w := run true o [ASetTheme true; ARender] (mount true o sampleHost emptyDom false) in
  isDarkMode (rendered w) = true /\ internalDarkMode (cells w) = false.
Proof.
  intros o w. split; [reflexivity |].
  apply (callback_freezes_internal_state true o sampleHost emptyDom false
           [ASetTheme true; ARender] (fun b _ => b) eq_refl).
Defined.
